(** * Garbage-Detection-System: the upload and analytics pipeline of [app.py]

    A shallow embedding of [src/app.py].  Python values are modelled as
    the code has them: [str] as [string] (a byte string; the UTF-8 bytes
    of the text), [bytes] as [list byte], a [dict] as a [gmap], a [set]
    as a [gset], nullable SQL columns as [option string].  Exceptions
    are explicit: a computation that may raise has a result in
    [exn + A].

    The libraries the application calls (Pillow, werkzeug, ultralytics),
    the table of decimal digits of Python's Unicode database and the
    two sources of non-determinism (uuid4 and the clock) are not part
    of the repository; they enter as records of collaborators and as
    explicit arguments. *)

From Stdlib Require Import ZArith NArith QArith Ascii String List Lia.
From Stdlib Require Import Strings.Byte Sorting.Sorted Permutation.
From stdpp Require Import base gmap strings list sorting.

Local Open Scope string_scope.

(** ** Exceptions and the error monad *)

Inductive exn : Type :=
  | ValueError (msg : string)
  | OtherError (cls msg : string).

(** [str(e)] for an exception built from one message. *)
Definition str_exn (e : exn) : string :=
  match e with
  | ValueError m => m
  | OtherError _ m => m
  end.

Definition result (A : Type) : Type := (exn + A)%type.

Definition ret {A} (a : A) : result A := inr a.
Definition raise {A} (e : exn) : result A := inl e.

Definition bind {A B} (m : result A) (k : A -> result B) : result B :=
  match m with
  | inl e => inl e
  | inr a => k a
  end.

(** [try: m  except Exception as e: h e] *)
Definition catch {A} (m : result A) (h : exn -> result A) : result A :=
  match m with
  | inl e => h e
  | inr a => inr a
  end.

Notation "'do!' x <- m ; k" := (bind m (fun x => k))
  (at level 10, x name, m at level 100, k at level 200).

(** ** The Python builtins the application uses *)

Module Py.

Definition code (c : ascii) : N := N_of_ascii c.

Definition between (lo hi : N) (c : ascii) : bool :=
  (lo <=? code c)%N && (code c <=? hi)%N.

Definition isdigit (c : ascii) : bool := between 48 57 c.

Definition isupper (c : ascii) : bool := between 65 90 c.

Definition lower_char (c : ascii) : ascii :=
  if isupper c then ascii_of_N (code c + 32) else c.

(** [s.lower()]; bytes outside A..Z are left as they are. *)
Fixpoint lower (s : string) : string :=
  match s with
  | EmptyString => EmptyString
  | String c s' => String (lower_char c) (lower s')
  end.

(** *** Whitespace

    [str.isspace] holds of the code points 9-13, 28-32, U+0085, U+00A0,
    U+1680, U+2000-U+200A, U+2028, U+2029, U+202F, U+205F and U+3000.
    In UTF-8 these are one, two or three bytes. *)

Definition space1 (c : ascii) : bool := between 9 13 c || between 28 32 c.

Definition space2 (c1 c2 : ascii) : bool :=
  (code c1 =? 194)%N && ((code c2 =? 133)%N || (code c2 =? 160)%N).

Definition space3 (c1 c2 c3 : ascii) : bool :=
  ((code c1 =? 225)%N && (code c2 =? 154)%N && (code c3 =? 128)%N) ||
  ((code c1 =? 226)%N && (code c2 =? 128)%N &&
     (between 128 138 c3 || between 168 169 c3 || (code c3 =? 175)%N)) ||
  ((code c1 =? 226)%N && (code c2 =? 129)%N && (code c3 =? 159)%N) ||
  ((code c1 =? 227)%N && (code c2 =? 128)%N && (code c3 =? 128)%N).

(** What follows the whitespace character at the head of [s], if there
    is one. *)
Definition skip_space (s : string) : option string :=
  match s with
  | String c1 s1 =>
      if space1 c1 then Some s1
      else match s1 with
           | String c2 s2 =>
               if space2 c1 c2 then Some s2
               else match s2 with
                    | String c3 s3 => if space3 c1 c2 c3 then Some s3 else None
                    | EmptyString => None
                    end
           | EmptyString => None
           end
  | EmptyString => None
  end.

(** [s.lstrip()] *)
Fixpoint lstrip (s : string) : string :=
  match s with
  | String c1 s1 =>
      if space1 c1 then lstrip s1
      else match s1 with
           | String c2 s2 =>
               if space2 c1 c2 then lstrip s2
               else match s2 with
                    | String c3 s3 => if space3 c1 c2 c3 then lstrip s3 else s
                    | EmptyString => s
                    end
           | EmptyString => s
           end
  | EmptyString => EmptyString
  end.

(** [s] is made of whitespace characters only ([s.isspace()] or [s == ""]). *)
Fixpoint all_space (s : string) : bool :=
  match s with
  | String c1 s1 =>
      if space1 c1 then all_space s1
      else match s1 with
           | String c2 s2 =>
               if space2 c1 c2 then all_space s2
               else match s2 with
                    | String c3 s3 => if space3 c1 c2 c3 then all_space s3 else false
                    | EmptyString => false
                    end
           | EmptyString => false
           end
  | EmptyString => true
  end.

(** [s.rstrip()]: the text up to the point from which only whitespace
    follows. *)
Fixpoint rstrip (s : string) : string :=
  if all_space s then EmptyString
  else match s with
       | String c s' => String c (rstrip s')
       | EmptyString => EmptyString
       end.

(** [s.strip()] *)
Definition strip (s : string) : string := rstrip (lstrip s).

(** [needle_is_prefix]: [hay.startswith(needle)] *)
Fixpoint startswith (needle hay : string) : bool :=
  match needle, hay with
  | EmptyString, _ => true
  | String _ _, EmptyString => false
  | String a n', String b h' => if Ascii.eqb a b then startswith n' h' else false
  end.

(** [needle in hay] *)
Fixpoint contains (needle hay : string) : bool :=
  if startswith needle hay then true
  else match hay with
       | EmptyString => false
       | String _ h' => contains needle h'
       end.

(** [s.split(sep)] for a one-character separator: always at least one
    part, the empty string splits into one empty part. *)
Fixpoint split (sep : ascii) (s : string) : list string :=
  match s with
  | EmptyString => [EmptyString]
  | String c s' =>
      if Ascii.eqb c sep then EmptyString :: split sep s'
      else match split sep s' with
           | [] => [String c EmptyString]
           | p :: ps => String c p :: ps
           end
  end.

(** [sep.join(parts)] *)
Fixpoint join (sep : string) (parts : list string) : string :=
  match parts with
  | [] => EmptyString
  | [p] => p
  | p :: ps => p +:+ sep +:+ join sep ps
  end.

(** [sorted(s)] for a set of strings: ascending in the order of [str],
    which compares code points, hence the UTF-8 bytes. *)
Definition sorted (s : gset string) : list string :=
  merge_sort String.le (elements s).

(** Truthiness of an optional string: [None] and [""] are falsy. *)
Definition truthy (o : option string) : bool :=
  match o with
  | None | Some EmptyString => false
  | Some _ => true
  end.

(** [o or d] *)
Definition or_else (o : option string) (d : string) : string :=
  match o with
  | None | Some EmptyString => d
  | Some s => s
  end.

(** [s or None] *)
Definition or_None (s : string) : option string :=
  match s with
  | EmptyString => None
  | _ => Some s
  end.

(** *** [float(s)]

    A float is an IEEE double.  A finite double is represented by its
    exact value, a reduced fraction; the negative zero, the two
    infinities and the NaN are kept apart. *)

Inductive pyfloat : Type :=
  | Finite (q : Q)
  | NegZero
  | Inf (negative : bool)
  | NaN.

(** The largest [k] with [2^k <= n/d]. *)
Definition log2_ratio (n d : positive) : Z :=
  let k := (Z.log2 (Zpos n) - Z.log2 (Zpos d))%Z in
  if (0 <=? k)%Z
  then if (Zpos d * 2 ^ k <=? Zpos n)%Z then k else (k - 1)%Z
  else if (Zpos d <=? Zpos n * 2 ^ (- k))%Z then k else (k - 1)%Z.

(** [a/b] rounded to the nearest integer, a tie going to the even one. *)
Definition round_half_even (a b : Z) : Z :=
  let q := (a / b)%Z in
  let r := (a mod b)%Z in
  if (2 * r <? b)%Z then q
  else if (b <? 2 * r)%Z then (q + 1)%Z
  else if Z.even q then q else (q + 1)%Z.

Definition zero (negative : bool) : pyfloat :=
  if negative then NegZero else Finite 0.

(** The double nearest to [n/d], with the sign given: 53 bits of
    mantissa, the smallest exponent for the subnormal numbers, and the
    infinity from [2^1024] on. *)
Definition nearest_double (negative : bool) (n d : positive) : pyfloat :=
  let k := log2_ratio n d in
  let p := Z.max (k - 52) (-1074) in
  let mant :=
    if (0 <=? p)%Z then round_half_even (Zpos n) (Zpos d * 2 ^ p)
    else round_half_even (Zpos n * 2 ^ (- p)) (Zpos d) in
  if (mant =? 0)%Z then zero negative
  else if (971 <? p)%Z || ((p =? 971)%Z && (mant =? 2 ^ 53)%Z) then Inf negative
  else
    let z := if negative then Z.opp mant else mant in
    Finite (Qred (if (0 <=? p)%Z then (z * 2 ^ p) # 1
                  else z # Z.to_pos (2 ^ (- p)))).

(** The double nearest to [m * 10^e]. *)
Definition double_of_decimal (negative : bool) (m : N) (e : Z) : pyfloat :=
  match m with
  | N0 => zero negative
  | Npos n =>
      match e with
      | Z0 => nearest_double negative n 1
      | Zpos k => nearest_double negative (n * Pos.pow 10 k) 1
      | Zneg k => nearest_double negative n (Pos.pow 10 k)
      end
  end.

(** The value of a float literal of the source, given as a fraction. *)
Definition literal (q : Q) : pyfloat :=
  match Qnum q with
  | Z0 => Finite 0
  | Zpos n => nearest_double false n (Qden q)
  | Zneg n => nearest_double true n (Qden q)
  end.

(** **** From text to ASCII

    [float] first replaces, in a text that is not all ASCII, each
    whitespace character by a space and each decimal digit of any script
    by its ASCII digit; the first other non-ASCII character becomes a
    question mark and ends the text. *)

(** The part of Python's Unicode database that [float] consults: the
    value of a code point as a decimal digit ([unicodedata.decimal]). *)
Record Unicode : Type := {
  todecimal : N -> option N
}.

(** One byte more for the UTF-8 decoder: the code points that are
    complete, the number of bytes the current one still needs, and its
    bits so far.  What is no UTF-8 gives U+FFFD. *)
Definition lead (v : N) : list N * nat * N :=
  if (v <? 128)%N then ([v], O, 0%N)
  else if (v <? 192)%N then ([65533%N], O, 0%N)
  else if (v <? 224)%N then ([], 1%nat, N.land v 31)
  else if (v <? 240)%N then ([], 2%nat, N.land v 15)
  else if (v <? 248)%N then ([], 3%nat, N.land v 7)
  else ([65533%N], O, 0%N).

Definition step (pending : nat) (acc : N) (v : N) : list N * nat * N :=
  match pending with
  | O => lead v
  | S k =>
      if (128 <=? v)%N && (v <? 192)%N
      then let acc' := (acc * 64 + N.land v 63)%N in
           match k with
           | O => ([acc'], O, 0%N)
           | S _ => ([], k, acc')
           end
      else let '(out, p, a) := lead v in (65533%N :: out, p, a)
  end.

Fixpoint decode_go (pending : nat) (acc : N) (s : string) : list N :=
  match s with
  | EmptyString => match pending with O => [] | S _ => [65533%N] end
  | String b s' =>
      let '(out, p, a) := step pending acc (code b) in
      (out ++ decode_go p a s')%list
  end.

(** The code points of a text. *)
Definition decode (s : string) : list N := decode_go 0 0 s.

(** [str.isspace] on a code point. *)
Definition unicode_space (cp : N) : bool :=
  ((9 <=? cp) && (cp <=? 13) || (28 <=? cp) && (cp <=? 32) ||
   (cp =? 133) || (cp =? 160) || (cp =? 5760) ||
   (8192 <=? cp) && (cp <=? 8202) || (cp =? 8232) || (cp =? 8233) ||
   (cp =? 8239) || (cp =? 8287) || (cp =? 12288))%N.

Fixpoint all_ascii (s : string) : bool :=
  match s with
  | EmptyString => true
  | String c s' => (code c <? 128)%N && all_ascii s'
  end.

Fixpoint to_ascii_go (U : Unicode) (cps : list N) : string :=
  match cps with
  | [] => EmptyString
  | cp :: rest =>
      if (cp <? 127)%N then String (ascii_of_N cp) (to_ascii_go U rest)
      else if unicode_space cp then String " " (to_ascii_go U rest)
      else if (cp =? 127)%N then "?"
      else match todecimal U cp with
           | Some d =>
               if (d <? 10)%N then String (ascii_of_N (48 + d)) (to_ascii_go U rest)
               else "?"
           | None => "?"
           end
  end.

(** A text that is all ASCII is taken as it is. *)
Definition to_ascii (U : Unicode) (s : string) : string :=
  if all_ascii s then s else to_ascii_go U (decode s).

(** **** The numeral

    The ASCII text is stripped of the whitespace of the C locale (TAB
    to CR and the space) and must then be one numeral. *)

Definition cspace (c : ascii) : bool := between 9 13 c || (code c =? 32)%N.

Fixpoint lstrip_c (s : string) : string :=
  match s with
  | EmptyString => EmptyString
  | String c s' => if cspace c then lstrip_c s' else s
  end.

Fixpoint rstrip_c (s : string) : string :=
  match s with
  | EmptyString => EmptyString
  | String c s' =>
      match rstrip_c s' with
      | EmptyString => if cspace c then EmptyString else String c EmptyString
      | r => String c r
      end
  end.

Definition digit_val (c : ascii) : N := (code c - 48)%N.

(** The longest prefix of decimal digits, and what follows it. *)
Fixpoint span_digits (s : string) : string * string :=
  match s with
  | EmptyString => (EmptyString, EmptyString)
  | String c s' =>
      if isdigit c
      then let (d, r) := span_digits s' in (String c d, r)
      else (EmptyString, s)
  end.

Fixpoint N_of_digits (acc : N) (ds : string) : N :=
  match ds with
  | EmptyString => acc
  | String c ds' => N_of_digits (10 * acc + digit_val c)%N ds'
  end.

(** An optional sign: [(negative, rest)]. *)
Definition take_sign (s : string) : bool * string :=
  match s with
  | String "-" s' => (true, s')
  | String "+" s' => (false, s')
  | _ => (false, s)
  end.

(** The grouping rule of numeric literals: an underscore stands only
    between two digits.  The underscores are removed. *)
Fixpoint drop_underscores (prev : ascii) (s : string) : option string :=
  match s with
  | EmptyString => if Ascii.eqb prev "_" then None else Some EmptyString
  | String c s' =>
      if Ascii.eqb c "_"
      then if isdigit prev then drop_underscores c s' else None
      else if Ascii.eqb prev "_" && negb (isdigit c) then None
           else String c <$> drop_underscores c s'
  end.

(** The exponent part: empty, or [e]/[E], an optional sign, digits. *)
Definition parse_exponent (s : string) : option Z :=
  match s with
  | EmptyString => Some 0%Z
  | String c s' =>
      if Ascii.eqb c "e" || Ascii.eqb c "E"
      then let (neg, r) := take_sign s' in
           match span_digits r with
           | (String d ds, EmptyString) =>
               let e := Z.of_N (N_of_digits 0 (String d ds)) in
               Some (if neg then Z.opp e else e)
           | _ => None
           end
      else None
  end.

(** A decimal numeral without its sign: digits, an optional point and
    fraction (one of the two digit runs is not empty), an optional
    exponent.  The result is [(mantissa, exponent of ten)]. *)
Definition parse_decimal (s : string) : option (N * Z) :=
  let (ip, r) := span_digits s in
  let (fp, r') :=
    match r with
    | String "." r1 => span_digits r1
    | _ => (EmptyString, r)
    end in
  match ip +:+ fp with
  | EmptyString => None
  | ds =>
      e ← parse_exponent r';
      Some (N_of_digits 0 ds, (e - Z.of_nat (String.length fp))%Z)
  end.

Definition parse_float (s : string) : option pyfloat :=
  t ← drop_underscores "000" s;
  let (neg, body) := take_sign t in
  let name := lower body in
  if String.eqb name "inf" || String.eqb name "infinity" then Some (Inf neg)
  else if String.eqb name "nan" then Some NaN
  else '(m, e) ← parse_decimal body; Some (double_of_decimal neg m e).

(** [float(s)] for a text [s]. *)
Definition float (U : Unicode) (s : string) : result pyfloat :=
  match parse_float (rstrip_c (lstrip_c (to_ascii U s))) with
  | Some f => ret f
  | None => raise (ValueError ("could not convert string to float: " +:+ s))
  end.

End Py.

(** ** [uuid.UUID]: a 128-bit integer and its text form *)

Module UUID.

Definition lowhex (d : N) : ascii :=
  if (d <? 10)%N then ascii_of_N (48 + d) else ascii_of_N (87 + d).

(** ['%0wx' % n] for [n < 16^w]: exactly [w] lower-case hex digits. *)
Fixpoint hex_fixed (w : nat) (n : N) : string :=
  match w with
  | O => EmptyString
  | S w' => hex_fixed w' (n / 16) +:+ String (lowhex (n mod 16)) EmptyString
  end.

(** ['%s-%s-%s-%s-%s' % (hex[:8], hex[8:12], hex[12:16], hex[16:20], hex[20:])] *)
Definition dashed (hex : string) : string :=
  substring 0 8 hex +:+ "-" +:+ substring 8 4 hex +:+ "-" +:+
  substring 12 4 hex +:+ "-" +:+ substring 16 4 hex +:+ "-" +:+
  substring 20 12 hex.

(** [str(u)]: the 32 hex digits in groups of 8-4-4-4-12. *)
Definition str (u : N) : string := dashed (hex_fixed 32 u).

Definition in_range (u : N) : Prop := (u < 2 ^ 128)%N.

End UUID.

(** ** [os.path] (posixpath) *)

Module os_path.

(** [p.rfind(c)], with [-1] when [c] does not occur. *)
Fixpoint rfind_from (c : ascii) (i : Z) (s : string) (last : Z) : Z :=
  match s with
  | EmptyString => last
  | String a s' => rfind_from c (i + 1) s' (if Ascii.eqb a c then i else last)
  end.

Definition rfind (c : ascii) (s : string) : Z := rfind_from c 0 s (-1).

(** [p[:i]] and [p[i:]] for [0 <= i]. *)
Definition upto (i : Z) (s : string) : string := substring 0 (Z.to_nat i) s.
Definition from (i : Z) (s : string) : string :=
  substring (Z.to_nat i) (String.length s - Z.to_nat i) s.

Fixpoint all_dots (s : string) : bool :=
  match s with
  | EmptyString => true
  | String c s' => Ascii.eqb c "." && all_dots s'
  end.

(** [os.path.splitext(p)]: the extension starts at the last dot of the
    last component, unless only dots precede it there. *)
Definition splitext (p : string) : string * string :=
  let sepIndex := rfind "/" p in
  let dotIndex := rfind "." p in
  if (sepIndex <? dotIndex)%Z
  then if all_dots (substring (Z.to_nat (sepIndex + 1))
                              (Z.to_nat (dotIndex - (sepIndex + 1))) p)
       then (p, EmptyString)
       else (upto dotIndex p, from dotIndex p)
  else (p, EmptyString).

(** [os.path.basename(p)] *)
Definition basename (p : string) : string := from (rfind "/" p + 1) p.

Definition endswith_sep (s : string) : bool :=
  match String.rev s with
  | String "/" _ => true
  | _ => false
  end.

(** [os.path.join(a, b)] *)
Definition join (a b : string) : string :=
  if Py.startswith "/" b then b
  else if String.eqb a EmptyString || endswith_sep a then a +:+ b
  else a +:+ "/" +:+ b.

End os_path.

(** ** [datetime] *)

Module datetime.

Record t : Type := mk {
  year : N; month : N; day : N;
  hour : N; minute : N; second : N
}.

(** The ranges a [datetime] object keeps, with the year on four digits
    (below 1000 the C library decides whether [%Y] is padded). *)
Definition wf (d : t) : Prop :=
  (1000 <= year d <= 9999 /\ 1 <= month d <= 12 /\ 1 <= day d <= 31 /\
   hour d <= 23 /\ minute d <= 59 /\ second d <= 59)%N.

Definition digit (n : N) : ascii := ascii_of_N (48 + n).

(** [n] on [w] decimal digits, zero padded. *)
Fixpoint dec_fixed (w : nat) (n : N) : string :=
  match w with
  | O => EmptyString
  | S w' => dec_fixed w' (n / 10) +:+ String (digit (n mod 10)) EmptyString
  end.

(** [d.strftime("%Y-%m-%d %H:%M:%S")] *)
Definition strftime (d : t) : string :=
  dec_fixed 4 (year d) +:+ "-" +:+ dec_fixed 2 (month d) +:+ "-" +:+
  dec_fixed 2 (day d) +:+ " " +:+ dec_fixed 2 (hour d) +:+ ":" +:+
  dec_fixed 2 (minute d) +:+ ":" +:+ dec_fixed 2 (second d).

(** Chronological order of wall-clock times: lexicographic on the six
    fields, most significant first. *)
Definition to_tuple (d : t) : list N :=
  [year d; month d; day d; hour d; minute d; second d].

Fixpoint lex_compare (a b : list N) : comparison :=
  match a, b with
  | [], [] => Eq
  | [], _ :: _ => Lt
  | _ :: _, [] => Gt
  | x :: a', y :: b' =>
      match N.compare x y with
      | Eq => lex_compare a' b'
      | c => c
      end
  end.

Definition compare (a b : t) : comparison := lex_compare (to_tuple a) (to_tuple b).

(** [a <= b]: [a] is not later than [b]. *)
Definition le (a b : t) : Prop := compare a b <> Gt.

End datetime.


(** ** The collaborators of the application *)

(** *** Pillow

    An opened image: the byte stream it reads from, the detected format
    ([None] when Pillow reports none) and the pixel mode. *)
Record PILImage : Type := {
  fp : list byte;
  format : option string;
  mode : string
}.

(** The image [img.convert(m)] returns: a new image in mode [m]; a
    converted image has no format of its own. *)
Definition convert (m : string) (img : PILImage) : PILImage :=
  {| fp := fp img; format := None; mode := m |}.

(** What is found at a path after [img.save(path, format=f, **params)]:
    the image that was encoded, the encoder and its quality parameter,
    and whether the encoder came to its end. *)
Record StoredFile : Type := {
  encoded : PILImage;
  encoder : option string;
  quality : option N;
  complete : bool
}.

(** The upload store: file name to file. *)
Abbreviation FileStore := (gmap string StoredFile).

(** How the encoder of [img.save] ends: the file is written, or an
    exception is raised.  [file_left] tells whether a file that was
    begun stays at the path: Pillow raises before it creates the file
    when it has no encoder for the format, and it depends on its
    version whether it removes the file of an encoder that failed. *)
Inductive Encoding : Type :=
  | Encoded
  | EncodeError (e : exn) (file_left : bool).

(** *** ultralytics

    A Python iterable as a [for] loop sees it: it is exhausted, it
    yields a value and goes on, or it raises. *)
Inductive Iter (A : Type) : Type :=
  | Done
  | Next (a : A) (rest : Iter A)
  | Broken (e : exn).

Arguments Done {A}.
Arguments Next {A} a rest.
Arguments Broken {A} e.

(** A list as an iterable. *)
Fixpoint of_list {A : Type} (l : list A) : Iter A :=
  match l with
  | [] => Done
  | a :: l' => Next a (of_list l')
  end.

(** A class index as it comes out of a result tensor: [int(cls)] may
    raise, [str(cls)] is its text form. *)
Record Cls : Type := {
  cls_int : result Z;
  cls_str : string
}.

(** One result: [res.boxes] is [None], or [res.boxes.cls] can be
    iterated. *)
Record YoloResult : Type := {
  boxes : option (Iter Cls)
}.

(** A loaded model: calling it on a path reads the file and returns the
    results, to be iterated, or raises; [names] is the label table. *)
Record YOLO : Type := {
  predict : FileStore -> string -> result (Iter YoloResult);
  names : gmap Z string
}.

(** *** The werkzeug upload *)
Record FileStorage : Type := {
  filename : option string;
  read : list byte
}.

(** Everything [app.py] imports and does not define.  [Image_open] and
    [Image_verify] raise on what Pillow does not accept.  [Image_load]
    reads the pixel data, which [convert] and [save] do first of all;
    [Image_convert m] is the conversion of the loaded pixels to mode [m]
    and [Image_encode] the encoder that [save] runs, and each of them
    may raise.  [model] is [None] when loading [best.pt] failed at
    start-up. *)
Record Externals : Type := {
  Image_open : list byte -> result PILImage;
  Image_verify : PILImage -> result unit;
  Image_load : PILImage -> result unit;
  Image_convert : string -> PILImage -> result unit;
  Image_encode : PILImage -> option string -> option N -> Encoding;
  secure_filename : string -> string;
  model : option YOLO
}.

(** ** Config section *)

Definition UPLOAD_FOLDER : string := "uploads".
Definition DETECTION_FOLDER : string := "runs".
Definition DB_NAME : string := "database.db".

Definition ALLOWED_IMAGE_EXTENSIONS : gset string :=
  {[ "jpg"; "jpeg"; "png"; "bmp"; "gif"; "tiff"; "webp"; "jfif" ]}.
Definition ALLOWED_VIDEO_EXTENSIONS : gset string :=
  {[ "mp4"; "avi"; "mov"; "mkv"; "webm" ]}.

Definition CITY_NAME : string := "Muzaffarabad, Azad Kashmir".
Definition CITY_COORDS : Py.pyfloat * Py.pyfloat :=
  (Py.literal (343700 # 10000), Py.literal (734711 # 10000)).

(** ** The [detections] table *)

Record Row : Type := {
  id : string;
  row_filename : string;
  detected_classes : option string;
  timestamp : option string;
  location : option string;
  incharge : option string
}.

(** The state the requests share: the upload folder, the table in
    insertion order and what was printed. *)
Record World : Type := {
  files : FileStore;
  db : list Row;
  stdout : list string
}.

(** [INSERT INTO detections]: [id] is the primary key, a second row with
    the same [id] is refused. *)
Definition insert (r : Row) (table : list Row) : result (list Row) :=
  if existsb (fun r' => String.eqb (id r') (id r)) table
  then raise (OtherError "sqlite3.IntegrityError" "UNIQUE constraint failed: detections.id")
  else ret (table ++ [r])%list.

(** SQL order of a nullable text column: NULL sorts below every text,
    texts compare byte by byte. *)
Definition text_le (a b : option string) : Prop :=
  match a, b with
  | None, _ => True
  | Some _, None => False
  | Some x, Some y => String.le x y
  end.

Definition newer_first (a b : Row) : Prop := text_le (timestamp b) (timestamp a).

#[global] Instance text_le_dec : RelDecision text_le.
Proof. intros [x|] [y|]; simpl; apply _. Defined.

#[global] Instance newer_first_dec : RelDecision newer_first.
Proof. intros a b. unfold newer_first. apply _. Defined.

(** [SELECT ... FROM detections ORDER BY timestamp DESC]; SQL leaves the
    order among equal timestamps open, the merge sort fixes one. *)
Definition list_all (table : list Row) : list Row :=
  merge_sort newer_first table.

(** ** Save uploaded image safely *)

Definition invalid_image : exn := ValueError "Uploaded file is not a valid image".

Definition ext_map : gmap string string := {[ "jpeg" := "jpg"; "jfif" := "jpg" ]}.

(** The extension of the stored file: the detected format ("JPEG" when
    Pillow reports none) in lower case, through [ext_map]. *)
Definition canonical_ext (img : PILImage) : string :=
  let fmt := Py.or_else (format img) "JPEG" in
  let fmt_lower := Py.lower fmt in
  default fmt_lower (ext_map !! fmt_lower).

(** [f"{uuid.uuid4()}_{base}.{ext}"] *)
Definition stored_name (token : N) (base ext : string) : string :=
  UUID.str token +:+ "_" +:+ base +:+ "." +:+ ext.

(** The open-and-verify pass inside the [try]. *)
Definition verify_pass (E : Externals) (raw : list byte) : result unit :=
  catch (do! img <- Image_open E raw; Image_verify E img)
        (fun _ => raise invalid_image).

(** [img.convert(m)]: the pixels are loaded, then converted. *)
Definition Image_converted (E : Externals) (m : string) (img : PILImage)
  : result PILImage :=
  do! _ <- Image_load E img;
  do! _ <- Image_convert E m img;
  ret (convert m img).

(** [img.save(filepath, format=fmt, **params)] of an image whose pixels
    are loaded: the store afterwards, and the exception if one is
    raised. *)
Definition Image_save (E : Externals) (img : PILImage) (filepath : string)
    (fmt : option string) (q : option N) (fs : FileStore) : result unit * FileStore :=
  match Image_encode E img fmt q with
  | Encoded =>
      (ret tt,
       <[ filepath := {| encoded := img; encoder := fmt; quality := q;
                         complete := true |} ]> fs)
  | EncodeError e file_left =>
      (raise e,
       if file_left
       then <[ filepath := {| encoded := img; encoder := fmt; quality := q;
                              complete := false |} ]> fs
       else fs)
  end.

(** [save_uploaded_image(file_storage)]; [token] is the value of
    [uuid.uuid4()].  The result is the path of the stored file, or the
    exception that the verify pass, [convert] or [save] raised. *)
Definition save_uploaded_image (E : Externals) (token : N)
    (file_storage : FileStorage) (fs : FileStore) : result string * FileStore :=
  let raw := read file_storage in
  match verify_pass E raw with
  | inl e => (raise e, fs)
  | inr _ =>
      match Image_open E raw with
      | inl e => (raise e, fs)
      | inr img =>
          let ext := canonical_ext img in
          let orig_name := secure_filename E (Py.or_else (filename file_storage) "image") in
          let base := fst (os_path.splitext orig_name) in
          let name := stored_name token base ext in
          let filepath := os_path.join UPLOAD_FOLDER name in
          if String.eqb ext "jpg" || String.eqb ext "jpeg"
          then
            match Image_converted E "RGB" img with
            | inl e => (raise e, fs)
            | inr rgb =>
                let (saved, fs') := Image_save E rgb filepath (Some "JPEG") (Some 90%N) fs in
                (do! _ <- saved; ret filepath, fs')
            end
          else
            match Image_load E img with
            | inl e => (raise e, fs)
            | inr _ =>
                let (saved, fs') := Image_save E img filepath (format img) None fs in
                (do! _ <- saved; ret filepath, fs')
            end
      end
  end.

(** ** Parse location *)

(** [U] is the digit table of the interpreter's Unicode database. *)
Definition parse_location_to_coords (U : Py.Unicode) (location_text : option string)
  : result (Py.pyfloat * Py.pyfloat) :=
  if negb (Py.truthy location_text) then ret CITY_COORDS
  else
    let text := Py.or_else location_text "" in
    let parts := map Py.strip (Py.split "," text) in
    do! parsed <-
      (if (2 <=? length parts)%nat
       then catch (do! lat <- Py.float U (nth 0 parts "");
                   do! lon <- Py.float U (nth 1 parts "");
                   ret (Some (lat, lon)))
                  (fun _ => ret None)
       else ret None);
    match parsed with
    | Some coords => ret coords
    | None =>
        if Py.contains "muzaffarabad" (Py.lower text) || Py.contains "azad" (Py.lower text)
        then ret CITY_COORDS
        else ret CITY_COORDS
    end.

(** ** Routes: [/upload] *)

Record Request : Type := {
  file : option FileStorage;
  form_location : option string;
  form_incharge : option string
}.

Inductive Response : Type :=
  | Body (text : string) (status : N)
  | Redirect (url : string)
  | Unhandled (e : exn).

(** [not file or file.filename == ""]; a [FileStorage] is truthy when
    its filename is. *)
Definition no_file (file : option FileStorage) : bool :=
  match file with
  | None => true
  | Some f =>
      negb (Py.truthy (filename f)) ||
      match filename f with
      | Some EmptyString => true
      | _ => false
      end
  end.

(** The label of one box: [names[int(cls)]], or [str(cls)] when the
    conversion or the lookup raises. *)
Definition label (names : gmap Z string) (cls : Cls) : string :=
  match cls_int cls with
  | inr i => default (cls_str cls) (names !! i)
  | inl _ => cls_str cls
  end.

(** [for cls in res.boxes.cls]: the set when the loop is left, and the
    exception that ended it, if one did. *)
Fixpoint read_boxes (names : gmap Z string) (detected_set : gset string)
    (it : Iter Cls) : gset string * option exn :=
  match it with
  | Done => (detected_set, None)
  | Next cls rest => read_boxes names ({[ label names cls ]} ∪ detected_set) rest
  | Broken e => (detected_set, Some e)
  end.

(** [for res in results]; an exception of the inner loop ends the outer
    one too. *)
Fixpoint read_results (names : gmap Z string) (detected_set : gset string)
    (it : Iter YoloResult) : gset string * option exn :=
  match it with
  | Done => (detected_set, None)
  | Next res rest =>
      match boxes res with
      | Some cs =>
          match read_boxes names detected_set cs with
          | (detected_set', None) => read_results names detected_set' rest
          | (detected_set', Some e) => (detected_set', Some e)
          end
      | None => read_results names detected_set rest
      end
  | Broken e => (detected_set, Some e)
  end.

(** [print("Model inference error:", e)] *)
Definition inference_error (e : exn) : string :=
  "Model inference error: " +:+ str_exn e.

(** The "Run model" block: the detected set and what was printed.  The
    set is created before the [try], so what was added before an
    exception stays in it. *)
Definition run_model (E : Externals) (fs : FileStore) (filepath : string)
    (out : list string) : result (gset string * list string) :=
  match model E with
  | Some m =>
      match predict m fs filepath with
      | inl e => ret (∅, (out ++ [inference_error e])%list)
      | inr results =>
          match read_results (names m) ∅ results with
          | (detected_set, Some e) =>
              ret (detected_set, (out ++ [inference_error e])%list)
          | (detected_set, None) => ret (detected_set, out)
          end
      end
  | None => ret ({[ "model_missing" ]}, out)
  end.

Definition detected_str (detected_set : gset string) : string :=
  if decide (detected_set = ∅) then "None"
  else Py.join ", " (Py.sorted detected_set).

Definition form_get (field : option string) : string :=
  Py.strip (default EmptyString field).

(** [url_for("analytics")] *)
Definition analytics_url : string := "/analytics".

(** [upload()]: [token_file] and [token_row] are the two values of
    [uuid.uuid4()], [now] the value of [datetime.now()]. *)
Definition upload (E : Externals) (token_file token_row : N) (now : datetime.t)
    (req : Request) (w : World) : Response * World :=
  let location := form_get (form_location req) in
  let incharge := form_get (form_incharge req) in
  match file req with
  | Some f =>
      if no_file (file req) then (Body "No file uploaded." 400%N, w)
      else
        match save_uploaded_image E token_file f (files w) with
        | (inl (ValueError m), fs) =>
            (Body m 400%N, {| files := fs; db := db w; stdout := stdout w |})
        | (inl e, fs) =>
            (Unhandled e, {| files := fs; db := db w; stdout := stdout w |})
        | (inr filepath, fs) =>
            match run_model E fs filepath (stdout w) with
            | inl e => (Unhandled e, {| files := fs; db := db w; stdout := stdout w |})
            | inr (detected_set, out) =>
                let row := {| id := UUID.str token_row;
                              row_filename := os_path.basename filepath;
                              detected_classes := Some (detected_str detected_set);
                              timestamp := Some (datetime.strftime now);
                              location := Py.or_None location;
                              incharge := Py.or_None incharge |} in
                match insert row (db w) with
                | inl e => (Unhandled e, {| files := fs; db := db w; stdout := out |})
                | inr table =>
                    (Redirect analytics_url, {| files := fs; db := table; stdout := out |})
                end
            end
        end
  | None => (Body "No file uploaded." 400%N, w)
  end.

(** ** Routes: [/analytics] *)

Inductive Size : Type := Small | Medium | Large | Unmatched.

(** The [if]/[elif] chain over the lower-cased field. *)
Definition size_of (detected : option string) : Size :=
  let detected_field := Py.lower (Py.or_else detected "") in
  if Py.contains "small" detected_field then Small
  else if Py.contains "medium" detected_field then Medium
  else if Py.contains "large" detected_field then Large
  else Unmatched.

Definition color_of (sz : Size) : string :=
  match sz with
  | Small => "#28a745"
  | Medium => "#ffc107"
  | Large => "#dc3545"
  | Unmatched => "#6c757d"
  end.

Record MapEntry : Type := {
  m_id : string;
  m_filename : string;
  m_detected : option string;
  m_timestamp : option string;
  m_location : option string;
  m_incharge : option string;
  m_lat : Py.pyfloat;
  m_lon : Py.pyfloat;
  m_color : string
}.

(** The loop state: the three counters and [map_data]. *)
Record Tally : Type := {
  small_count : nat;
  medium_count : nat;
  large_count : nat;
  map_data : list MapEntry
}.

Definition tally0 : Tally :=
  {| small_count := 0; medium_count := 0; large_count := 0; map_data := [] |}.

Definition bump (sz : Size) (t : Tally) : nat * nat * nat :=
  match sz with
  | Small => (S (small_count t), medium_count t, large_count t)
  | Medium => (small_count t, S (medium_count t), large_count t)
  | Large => (small_count t, medium_count t, S (large_count t))
  | Unmatched => (small_count t, medium_count t, large_count t)
  end.

(** One turn of [for r in rows]. *)
Definition tally_row (U : Py.Unicode) (t : Tally) (r : Row) : result Tally :=
  let sz := size_of (detected_classes r) in
  let '(s, m, l) := bump sz t in
  do! coords <- parse_location_to_coords U (Some (Py.or_else (location r) ""));
  ret {| small_count := s; medium_count := m; large_count := l;
         map_data := (map_data t ++
           [{| m_id := id r; m_filename := row_filename r;
               m_detected := detected_classes r; m_timestamp := timestamp r;
               m_location := location r; m_incharge := incharge r;
               m_lat := fst coords; m_lon := snd coords;
               m_color := color_of sz |}])%list |}.

Fixpoint tally_rows (U : Py.Unicode) (t : Tally) (rows : list Row) : result Tally :=
  match rows with
  | [] => ret t
  | r :: rows' => do! t' <- tally_row U t r; tally_rows U t' rows'
  end.

(** What [analytics()] hands to the template; [map_data] is the list
    before [json.dumps]. *)
Record Page : Type := {
  page_rows : list Row;
  chart_data : list nat;
  page_tally : Tally;
  city_coords : Py.pyfloat * Py.pyfloat;
  city_name : string
}.

Definition analytics (U : Py.Unicode) (w : World) : result Page :=
  let rows := list_all (db w) in
  do! t <- tally_rows U tally0 rows;
  ret {| page_rows := rows;
         chart_data := [small_count t; medium_count t; large_count t];
         page_tally := t;
         city_coords := CITY_COORDS;
         city_name := CITY_NAME |}.

(** ** The words of the specification *)

(** The image validation of the upload: the bytes open and pass
    [verify]. *)
Definition validates (E : Externals) (raw : list byte) : Prop :=
  exists img, Image_open E raw = ret img /\ Image_verify E img = ret tt.

(** The bytes decode as a valid image: they open, pass [verify], and
    their pixel data can be read. *)
Definition decodes (E : Externals) (raw : list byte) : Prop :=
  exists img, Image_open E raw = ret img /\ Image_verify E img = ret tt /\
              Image_load E img = ret tt.

(** A float that is a real number: not an infinity and not a NaN. *)
Definition is_real (x : Py.pyfloat) : bool :=
  match x with
  | Py.Finite _ | Py.NegZero => true
  | Py.Inf _ | Py.NaN => false
  end.

(** A text that reads as a real number: [float] gives a real number. *)
Definition parses_as_real (U : Py.Unicode) (s : string) : Prop :=
  exists x, Py.float U s = ret x /\ is_real x = true.

(** The comma-separated parts of a location text, as the resolver
    takes them. *)
Definition location_parts (text : string) : list string :=
  map Py.strip (Py.split "," text).

(** The first two parts when [float] accepts both. *)
Definition first_two_floats (U : Py.Unicode) (text : string)
  : option (Py.pyfloat * Py.pyfloat) :=
  match location_parts text with
  | p0 :: p1 :: _ =>
      match Py.float U p0, Py.float U p1 with
      | inr lat, inr lon => Some (lat, lon)
      | _, _ => None
      end
  | _ => None
  end.

(** [kw] occurs in [s] up to the case of the letters of [s]. *)
Definition ci_substring (kw s : string) : Prop :=
  exists pre mid post, s = pre +:+ mid +:+ post /\ Py.lower mid = kw.

(** The number of rows a test accepts. *)
Definition count (f : Row -> bool) (rows : list Row) : nat :=
  length (List.filter f rows).

Definition mentions (kw : string) (r : Row) : bool :=
  Py.contains kw (Py.lower (Py.or_else (detected_classes r) "")).

(** What an iteration yields before it ends or raises, and the
    exception it raises. *)
Fixpoint yielded {A : Type} (it : Iter A) : list A :=
  match it with
  | Done | Broken _ => []
  | Next a rest => a :: yielded rest
  end.

Fixpoint failure {A : Type} (it : Iter A) : option exn :=
  match it with
  | Done => None
  | Next _ rest => failure rest
  | Broken e => Some e
  end.

(** The exception that reading the boxes of one result raises. *)
Definition boxes_failure (res : YoloResult) : option exn :=
  match boxes res with
  | Some cs => failure cs
  | None => None
  end.

(** The results whose boxes are read: all up to the first whose boxes
    raise, that one included. *)
Fixpoint reached (results : list YoloResult) : list YoloResult :=
  match results with
  | [] => []
  | res :: results' =>
      res :: match boxes_failure res with
             | Some _ => []
             | None => reached results'
             end
  end.

(** [x] is one of the labels the classifier produced: the label of a
    box that one of its results yields, as far as the results are
    read. *)
Definition is_label (table : gmap Z string) (results : Iter YoloResult) (x : string)
  : Prop :=
  exists res cs cls, res ∈ reached (yielded results) /\ boxes res = Some cs /\
                     cls ∈ yielded cs /\ x = label table cls.

(** The exception that ends the reading of the results: the first one
    that the boxes of a result or the results themselves raise. *)
Fixpoint first_failure (results : Iter YoloResult) : option exn :=
  match results with
  | Done => None
  | Next res rest =>
      match boxes_failure res with
      | Some e => Some e
      | None => first_failure rest
      end
  | Broken e => Some e
  end.

(** The three counts and the colour, as the specification gives them:
    the first of small, medium, large that the field mentions wins. *)
Definition counts_small (r : Row) : bool := mentions "small" r.
Definition counts_medium (r : Row) : bool :=
  negb (mentions "small" r) && mentions "medium" r.
Definition counts_large (r : Row) : bool :=
  negb (mentions "small" r) && negb (mentions "medium" r) && mentions "large" r.

Definition display_color (r : Row) : string :=
  if mentions "small" r then "#28a745"
  else if mentions "medium" r then "#ffc107"
  else if mentions "large" r then "#dc3545"
  else "#6c757d".

(** The primary key [UUID.str token] is not in the table yet. *)
Definition fresh (token : N) (table : list Row) : Prop :=
  Forall (fun r => id r <> UUID.str token) table.

(** The extension test the configuration suggests and no route applies:
    the text after the last dot, in lower case, is an allowed one. *)
Definition allowed_image (name : string) : bool :=
  bool_decide (Py.lower (os_path.from 1 (snd (os_path.splitext name)))
               ∈ ALLOWED_IMAGE_EXTENSIONS).

(** The canonical extension in the words of the specification: the
    detected format in lower case, with jpeg and jfif collapsed to
    jpg. *)
Definition collapsed (fmt_lower : string) : string :=
  if String.eqb fmt_lower "jpeg" || String.eqb fmt_lower "jfif" then "jpg"
  else fmt_lower.

(** The path [save_uploaded_image] stores an upload under, once its
    bytes opened as [img]. *)
Definition stored_path (E : Externals) (token : N) (f : FileStorage) (img : PILImage)
  : string :=
  os_path.join UPLOAD_FOLDER
    (stored_name token
       (fst (os_path.splitext (secure_filename E (Py.or_else (filename f) "image"))))
       (canonical_ext img)).

(** The two ways a file is written. *)
Definition as_rgb_jpeg (img : PILImage) : StoredFile :=
  {| encoded := convert "RGB" img; encoder := Some "JPEG"; quality := Some 90%N;
     complete := true |}.
Definition as_detected (img : PILImage) : StoredFile :=
  {| encoded := img; encoder := format img; quality := None; complete := true |}.

(** Pillow reads, converts and encodes [img] the way its canonical
    extension asks for, without an exception. *)
Definition writes (E : Externals) (img : PILImage) : Prop :=
  Image_load E img = ret tt /\
  if String.eqb (canonical_ext img) "jpg"
  then Image_convert E "RGB" img = ret tt /\
       Image_encode E (convert "RGB" img) (Some "JPEG") (Some 90%N) = Encoded
  else Image_encode E img (format img) None = Encoded.

(** The row an accepted upload inserts. *)
Definition upload_row (token_row : N) (now : datetime.t) (req : Request)
    (filepath : string) (detected_set : gset string) : Row :=
  {| id := UUID.str token_row;
     row_filename := os_path.basename filepath;
     detected_classes := Some (detected_str detected_set);
     timestamp := Some (datetime.strftime now);
     location := Py.or_None (form_get (form_location req));
     incharge := Py.or_None (form_get (form_incharge req)) |}.

(** ** Stand-ins for the collaborators, for the examples *)

Module Demo.

(** Recognises the PNG signature, the JPEG start-of-image marker and
    the comment that opens an XPM file. *)
Definition open_by_magic (raw : list byte) : result PILImage :=
  match raw with
  | x89 :: x50 :: x4e :: x47 :: _ =>
      ret {| fp := raw; format := Some "PNG"; mode := "RGBA" |}
  | xff :: xd8 :: _ =>
      ret {| fp := raw; format := Some "JPEG"; mode := "L" |}
  | x2f :: x2a :: _ =>
      ret {| fp := raw; format := Some "XPM"; mode := "P" |}
  | _ => raise (OtherError "PIL.UnidentifiedImageError" "cannot identify image file")
  end.

(** A stream of fewer than eight bytes is truncated. *)
Definition verify_length (img : PILImage) : result unit :=
  if (8 <=? length (fp img))%nat then ret tt
  else raise (OtherError "SyntaxError" "broken file").

Fixpoint ends_with_eoi (raw : list byte) : bool :=
  match raw with
  | [xff; xd9] => true
  | _ :: raw' => ends_with_eoi raw'
  | [] => false
  end.

(** The pixels of a JPEG stream are there when the stream ends with
    the end-of-image marker. *)
Definition load_to_marker (img : PILImage) : result unit :=
  if bool_decide (format img = Some "JPEG") && negb (ends_with_eoi (fp img))
  then raise (OtherError "OSError" "image file is truncated")
  else ret tt.

Definition convert_any (m : string) (img : PILImage) : result unit := ret tt.

(** There are encoders for JPEG and PNG. *)
Definition encode_known (img : PILImage) (fmt : option string) (q : option N)
  : Encoding :=
  match fmt with
  | Some f =>
      if String.eqb f "JPEG" || String.eqb f "PNG" then Encoded
      else EncodeError (OtherError "KeyError" ("'" +:+ f +:+ "'")) false
  | None => EncodeError (ValueError "unknown file extension") false
  end.

Definition keep (c : ascii) : bool :=
  Py.isdigit c || Py.isupper c || Py.between 97 122 c ||
  Ascii.eqb c "_" || Ascii.eqb c "." || Ascii.eqb c "-".

(** Keeps letters, digits, underscore, dot and dash. *)
Fixpoint ascii_filename (s : string) : string :=
  match s with
  | EmptyString => EmptyString
  | String c s' =>
      if keep c then String c (ascii_filename s') else ascii_filename s'
  end.

Definition box (i : Z) : Cls := {| cls_int := ret i; cls_str := "tensor" |}.

(** Two results; the second has no boxes. *)
Definition yolo (table : gmap Z string) : YOLO :=
  {| predict := fun _ _ =>
       ret (of_list [ {| boxes := Some (of_list [box 1; box 0; box 1]) |};
                      {| boxes := None |} ]);
     names := table |}.

Definition failing_yolo : YOLO :=
  {| predict := fun _ _ => raise (OtherError "RuntimeError" "out of memory");
     names := ∅ |}.

(** The results come one at a time, and the second cannot be had. *)
Definition breaking_yolo (table : gmap Z string) : YOLO :=
  {| predict := fun _ _ =>
       ret (Next {| boxes := Some (of_list [box 1]) |}
              (Broken (OtherError "RuntimeError" "out of memory")));
     names := table |}.

Definition externals (m : option YOLO) : Externals :=
  {| Image_open := open_by_magic; Image_verify := verify_length;
     Image_load := load_to_marker; Image_convert := convert_any;
     Image_encode := encode_known;
     secure_filename := ascii_filename; model := m |}.

(** The digits of the Arabic-Indic and the Devanagari script. *)
Definition unicode : Py.Unicode :=
  {| Py.todecimal := fun cp =>
       if ((1632 <=? cp) && (cp <=? 1641))%N then Some (cp - 1632)%N
       else if ((2406 <=? cp) && (cp <=? 2415))%N then Some (cp - 2406)%N
       else None |}.

Definition labels : gmap Z string := {[ 0%Z := "small-garbage"; 1%Z := "large-garbage" ]}.
Definition blank_labels : gmap Z string := {[ 0%Z := ""; 1%Z := "" ]}.

Definition png : list byte := [x89; x50; x4e; x47; x0d; x0a; x1a; x0a; x00].
Definition jpeg : list byte :=
  [xff; xd8; xff; xe0; x00; x10; x4a; x46; x49; x46; xff; xd9].
Definition truncated_jpeg : list byte :=
  [xff; xd8; xff; xe0; x00; x10; x4a; x46; x49; x46].
Definition xpm : list byte := [x2f; x2a; x20; x58; x50; x4d; x20; x2a; x2f].
Definition text : list byte := [x68; x65; x6c; x6c; x6f].

Definition request (name : string) (raw : list byte) : Request :=
  {| file := Some {| filename := Some name; read := raw |};
     form_location := Some "34.37,73.47";
     form_incharge := Some "Ali" |}.

Definition world0 : World := {| files := ∅; db := []; stdout := [] |}.

Definition now : datetime.t := datetime.mk 2025 3 9 14 5 0.
Definition later : datetime.t := datetime.mk 2025 3 10 8 0 0.

Definition earlier : datetime.t := datetime.mk 2024 12 31 23 59 59.

Definition row (key detected : string) (at_time : datetime.t) : Row :=
  {| id := key; row_filename := key +:+ ".png";
     detected_classes := Some detected;
     timestamp := Some (datetime.strftime at_time);
     location := None; incharge := None |}.

(** A table of four rows, not in the order of their times. *)
Definition world1 : World :=
  {| files := ∅;
     db := [row "a" "small-crack" now; row "b" "Medium bag, small" later;
            row "c" "LARGE pile" earlier; row "d" "None" now];
     stdout := [] |}.

Definition token_a : N := 0x123e4567e89b42d3a456426614174000.
Definition token_b : N := 0x9f1c2d3e4b5a4c6d8e7f001122334455.
Definition token_c : N := 0x0a0b0c0d0e0f40718293a4b5c6d7e8f9.

(** U+00A0, the no-break space, and the Arabic-Indic digits three and
    four, in UTF-8. *)
Definition nbsp : string := String (ascii_of_N 194) (String (ascii_of_N 160) "").
Definition arabic_34 : string :=
  String (ascii_of_N 217) (String (ascii_of_N 163)
    (String (ascii_of_N 217) (String (ascii_of_N 164) ""))).

End Demo.

(** ** Further notions the properties are stated with *)

(** The file an accepted upload writes for the opened image [img]. *)
Definition written_file (img : PILImage) : StoredFile :=
  if decide (canonical_ext img = "jpg") then as_rgb_jpeg img else as_detected img.

(** A record that no size keyword matches. *)
Definition counts_none (r : Row) : bool :=
  negb (mentions "small" r) && negb (mentions "medium" r) && negb (mentions "large" r).

(** The coordinates of a record on the map: the first two parts of its
    location when [float] accepts both, the default city otherwise. *)
Definition coords_of (U : Py.Unicode) (r : Row) : Py.pyfloat * Py.pyfloat :=
  default CITY_COORDS (first_two_floats U (Py.or_else (location r) "")).

(** The map entry of a record. *)
Definition entry_of (U : Py.Unicode) (r : Row) : MapEntry :=
  {| m_id := id r; m_filename := row_filename r;
     m_detected := detected_classes r; m_timestamp := timestamp r;
     m_location := location r; m_incharge := incharge r;
     m_lat := fst (coords_of U r); m_lon := snd (coords_of U r);
     m_color := display_color r |}.

(** Every character of [s] passes the test [P]. *)
Fixpoint all_chars (P : ascii -> bool) (s : string) : bool :=
  match s with
  | EmptyString => true
  | String c s' => P c && all_chars P s'
  end.

Definition not_char (x : ascii) (c : ascii) : bool := negb (Ascii.eqb c x).

(** The shape [dddd-dd-dd dd:dd:dd]. *)
Definition timestamp_shape (s : string) : bool :=
  match s with
  | String y1 (String y2 (String y3 (String y4 (String "-"
    (String m1 (String m2 (String "-" (String d1 (String d2 (String " "
    (String h1 (String h2 (String ":" (String n1 (String n2 (String ":"
    (String s1 (String s2 EmptyString)))))))))))))))))) =>
      forallb Py.isdigit [y1; y2; y3; y4; m1; m2; d1; d2; h1; h2; n1; n2; s1; s2]
  | _ => false
  end.

(** The answer to an exception of [save_uploaded_image]: only a
    [ValueError] is caught. *)
Definition answer_to (e : exn) : Response :=
  match e with
  | ValueError m => Body m 400%N
  | OtherError _ _ => Unhandled e
  end.

(** A table in which the id that [Demo.token_b] prints is taken. *)
Definition taken_world : World :=
  {| files := ∅;
     db := [Demo.row (UUID.str Demo.token_b) "small-crack" Demo.earlier];
     stdout := [] |}.

(** * Properties *)

(** ** The builtins on examples *)

Example float_numerals (U : Py.Unicode) :
  Py.float U "34.5" = ret (Py.Finite (69 # 2)) /\
  Py.float U " 73.9 " = ret (Py.Finite (2600125097364685 # 35184372088832)) /\
  Py.float U "-1_000.5e-1" = ret (Py.literal (-2001 # 20)) /\
  Py.float U ".5" = ret (Py.Finite (1 # 2)) /\
  Py.float U "5." = ret (Py.Finite (5 # 1)) /\
  Py.float U "0.1" = ret (Py.Finite (3602879701896397 # 36028797018963968)).
Proof. repeat split. Qed.

Example float_specials (U : Py.Unicode) :
  Py.float U "nan" = ret Py.NaN /\ Py.float U "-Infinity" = ret (Py.Inf true) /\
  Py.float U "+INF" = ret (Py.Inf false).
Proof. repeat split. Qed.

(** Rounding to a double: the ties go to the even mantissa, what is too
    large becomes an infinity and what is too small a zero. *)
Example float_rounds (U : Py.Unicode) :
  Py.float U "9007199254740993" = ret (Py.Finite (9007199254740992 # 1)) /\
  Py.float U "1e23" = ret (Py.Finite (99999999999999991611392 # 1)) /\
  Py.float U "1e999" = ret (Py.Inf false) /\
  Py.float U "-1.7976931348623159e308" = ret (Py.Inf true) /\
  Py.float U "1e-999" = ret (Py.Finite 0) /\
  Py.float U "-1e-999" = ret Py.NegZero /\
  Py.float U "2.4703282292062327e-324" = ret (Py.Finite 0) /\
  Py.float U "2.4703282292062328e-324" = Py.float U "5e-324".
Proof. repeat split; vm_compute; reflexivity. Qed.

(** Whitespace and digits outside ASCII. *)
Example float_unicode :
  Py.float Demo.unicode (Demo.nbsp +:+ "34.5" +:+ Demo.nbsp) = ret (Py.Finite (69 # 2)) /\
  Py.float Demo.unicode (Demo.arabic_34 +:+ ".5") = ret (Py.Finite (69 # 2)) /\
  exists e, Py.float {| Py.todecimal := fun _ => None |} (Demo.arabic_34 +:+ ".5")
            = raise e.
Proof. repeat split; try (vm_compute; reflexivity). eexists. vm_compute. reflexivity. Qed.

Example float_refused (U : Py.Unicode) :
  forall s, s ∈ ["garbage text"; ""; "."; "1e"; "1__0"; "_1"; "0x10"; "+-1"; "1 2"] ->
  exists e, Py.float U s = raise e.
Proof.
  intros s Hs. repeat (apply elem_of_cons in Hs as [-> | Hs]; [eexists; reflexivity |]).
  by apply elem_of_nil in Hs.
Qed.

Example literal_examples :
  CITY_COORDS = (Py.Finite (4837147474772623 # 140737488355328),
                 Py.Finite (2585034520175785 # 35184372088832)) /\
  forall U, Py.float U "34.3700" = ret (fst CITY_COORDS) /\
            Py.float U "73.4711" = ret (snd CITY_COORDS).
Proof. split; [| intros U; split]; vm_compute; reflexivity. Qed.

Example split_strip_join :
  Py.split "," "a,,b," = ["a"; ""; "b"; ""] /\ Py.split "," "" = [""] /\
  Py.strip "  a b  " = "a b" /\ Py.join ", " ["a"; "b"; "c"] = "a, b, c" /\
  Py.strip (Demo.nbsp +:+ " a" +:+ Demo.nbsp +:+ "b " +:+ Demo.nbsp)
  = "a" +:+ Demo.nbsp +:+ "b".
Proof. repeat split. Qed.

Example splitext_examples :
  os_path.splitext "photo.tar.gz" = ("photo.tar", ".gz") /\
  os_path.splitext ".bashrc" = (".bashrc", "") /\
  os_path.splitext "noext" = ("noext", "") /\
  os_path.basename "uploads/abc_x.png" = "abc_x.png".
Proof. repeat split. Qed.

Example uuid_str_example :
  UUID.str 0x123e4567e89b42d3a456426614174000 = "123e4567-e89b-42d3-a456-426614174000".
Proof. reflexivity. Qed.

Example strftime_example :
  datetime.strftime (datetime.mk 2026 11 3 9 5 0) = "2026-11-03 09:05:00".
Proof. reflexivity. Qed.

(** ** Strings *)

#[local] Arguments String.append !_ _ / : simpl nomatch.

Lemma append_nil_r (s : string) : s +:+ "" = s.
Proof. induction s as [|c s IH]; simpl; [done | by f_equal]. Qed.

Lemma append_assoc (a b c : string) : (a +:+ b) +:+ c = a +:+ (b +:+ c).
Proof. induction a as [|x a IH]; simpl; [done | by f_equal]. Qed.

Lemma length_append (a b : string) :
  String.length (a +:+ b) = (String.length a + String.length b)%nat.
Proof. induction a as [|x a IH]; simpl; [done | by f_equal]. Qed.

(** Two concatenations that agree and whose heads are as long have the
    same heads and the same tails. *)
Lemma append_inj_length (a a' b b' : string) :
  String.length a = String.length a' -> a +:+ b = a' +:+ b' -> a = a' /\ b = b'.
Proof.
  revert a'. induction a as [|x a IH]; intros [|y a'] Hlen Heq; simpl in *;
    try discriminate; [done |].
  injection Heq as -> Heq. injection Hlen as Hlen.
  destruct (IH _ Hlen Heq) as [-> ->]. done.
Qed.

Lemma append_eq_nil (a b : string) : a +:+ b = "" -> a = "" /\ b = "".
Proof. destruct a; simpl; [done | discriminate]. Qed.

(** ** The verify pass *)

Lemma decodes_validates E raw : decodes E raw -> validates E raw.
Proof. intros (img & Hopen & Hver & _). by exists img. Qed.

Lemma verify_pass_ok E raw : validates E raw -> verify_pass E raw = ret tt.
Proof.
  intros (img & Hopen & Hver). unfold verify_pass. rewrite Hopen. simpl.
  rewrite Hver. reflexivity.
Qed.

Lemma verify_pass_invalid E raw :
  ~ validates E raw -> verify_pass E raw = raise invalid_image.
Proof.
  intros Hno. unfold verify_pass.
  destruct (Image_open E raw) as [e|img] eqn:Hopen; simpl; [done |].
  destruct (Image_verify E img) as [e|[]] eqn:Hver; simpl; [done |].
  exfalso. apply Hno. exists img. done.
Qed.

Lemma save_uploaded_image_invalid E token f fs :
  ~ validates E (read f) ->
  verify_pass E (read f) = raise invalid_image /\
  save_uploaded_image E token f fs = (raise invalid_image, fs).
Proof.
  intros Hno. pose proof (verify_pass_invalid E _ Hno) as Hv.
  split; [exact Hv |]. unfold save_uploaded_image. rewrite Hv. reflexivity.
Qed.

(** ** Saving an image that passed the verify pass *)

Lemma ext_map_lookup (k : string) :
  ext_map !! k = if decide (k = "jpeg") then Some "jpg"
                 else if decide (k = "jfif") then Some "jpg" else None.
Proof.
  unfold ext_map. rewrite lookup_insert, lookup_singleton.
  repeat case_decide; congruence.
Qed.

(** The extension is never "jpeg": the second alternative of the test
    [ext in ("jpg", "jpeg")] adds nothing to the first. *)
Lemma canonical_ext_not_jpeg img : canonical_ext img <> "jpeg".
Proof.
  unfold canonical_ext. rewrite ext_map_lookup.
  repeat case_decide; simpl; congruence.
Qed.

Lemma canonical_ext_jpg_iff img :
  canonical_ext img = "jpg" <->
  Py.lower (Py.or_else (format img) "JPEG") ∈ ["jpeg"; "jfif"; "jpg"].
Proof.
  unfold canonical_ext. rewrite ext_map_lookup, !elem_of_cons, elem_of_nil.
  repeat case_decide; simpl; intuition congruence.
Qed.

(** The dictionary lookup with its default is the collapse of jpeg and
    jfif to jpg. *)
Lemma canonical_ext_collapsed img :
  canonical_ext img = collapsed (Py.lower (Py.or_else (format img) "JPEG")).
Proof.
  unfold canonical_ext, collapsed. rewrite ext_map_lookup.
  destruct (String.eqb_spec (Py.lower (Py.or_else (format img) "JPEG")) "jpeg") as [->|Hn1];
    [reflexivity |].
  destruct (String.eqb_spec (Py.lower (Py.or_else (format img) "JPEG")) "jfif") as [->|Hn2];
    [reflexivity |].
  rewrite !decide_False by done. reflexivity.
Qed.

Lemma format_of_other_ext img :
  canonical_ext img <> "jpg" ->
  exists fmt, format img = Some fmt /\ fmt <> "" /\ canonical_ext img = Py.lower fmt.
Proof.
  intros Hne. destruct (format img) as [[|c fmt]|] eqn:Hf.
  - exfalso. apply Hne. unfold canonical_ext. rewrite Hf. reflexivity.
  - exists (String c fmt). split; [done |]. split; [done |].
    revert Hne. unfold canonical_ext. rewrite Hf, ext_map_lookup.
    cbn [Py.or_else]. repeat case_decide; simpl; congruence.
  - exfalso. apply Hne. unfold canonical_ext. rewrite Hf. reflexivity.
Qed.

(** The test [ext in ("jpg", "jpeg")] on the canonical extension. *)
Lemma jpeg_branch img :
  String.eqb (canonical_ext img) "jpg" || String.eqb (canonical_ext img) "jpeg"
  = String.eqb (canonical_ext img) "jpg".
Proof.
  pose proof (canonical_ext_not_jpeg img) as Hne.
  destruct (String.eqb_spec (canonical_ext img) "jpg"); [done |].
  destruct (String.eqb_spec (canonical_ext img) "jpeg"); done.
Qed.

(** Runs the error monad on what is known. *)
Ltac run := cbv beta iota zeta delta [bind ret raise catch fst snd].
Ltac run_in H := cbv beta iota zeta delta [bind ret raise catch fst snd] in H.

(** [save_uploaded_image] after the verify pass. *)
Lemma save_uploaded_image_verified E token f fs img :
  Image_open E (read f) = ret img -> Image_verify E img = ret tt ->
  save_uploaded_image E token f fs =
    if String.eqb (canonical_ext img) "jpg"
    then match Image_converted E "RGB" img with
         | inl e => (raise e, fs)
         | inr rgb =>
             let (saved, fs') :=
               Image_save E rgb (stored_path E token f img) (Some "JPEG") (Some 90%N) fs in
             (do! _ <- saved; ret (stored_path E token f img), fs')
         end
    else match Image_load E img with
         | inl e => (raise e, fs)
         | inr _ =>
             let (saved, fs') :=
               Image_save E img (stored_path E token f img) (format img) None fs in
             (do! _ <- saved; ret (stored_path E token f img), fs')
         end.
Proof.
  intros Hopen Hver. unfold save_uploaded_image.
  rewrite (verify_pass_ok E (read f)) by (by exists img).
  rewrite Hopen. unfold ret at 1 2. cbv beta iota zeta.
  fold (stored_path E token f img). rewrite jpeg_branch. reflexivity.
Qed.

(** When Pillow loads, converts and encodes the image, the file is
    written under the stored path. *)
Lemma save_uploaded_image_ok E token f fs img :
  Image_open E (read f) = ret img -> Image_verify E img = ret tt -> writes E img ->
  save_uploaded_image E token f fs =
    (ret (stored_path E token f img),
     <[ stored_path E token f img := written_file img ]> fs).
Proof.
  intros Hopen Hver [Hload Hw].
  rewrite (save_uploaded_image_verified E token f fs img Hopen Hver).
  unfold written_file, Image_converted, Image_save.
  destruct (String.eqb_spec (canonical_ext img) "jpg") as [Hjpg|Hjpg].
  - destruct Hw as [Hconv Henc]. rewrite Hload, decide_True by done. run.
    rewrite Hconv. run. rewrite Henc. reflexivity.
  - rewrite Hload, Hw, decide_False by done. reflexivity.
Qed.

(** When the pixel data cannot be read, nothing is written. *)
Lemma save_uploaded_image_unloadable E token f fs img e :
  Image_open E (read f) = ret img -> Image_verify E img = ret tt ->
  Image_load E img = raise e ->
  save_uploaded_image E token f fs = (raise e, fs).
Proof.
  intros Hopen Hver Hload.
  rewrite (save_uploaded_image_verified E token f fs img Hopen Hver).
  unfold Image_converted. rewrite Hload. run. by destruct (String.eqb _ _).
Qed.

(** The first component of a result of [save_uploaded_image] is a path
    only when the file is in the store. *)
Lemma save_uploaded_image_success E token f fs0 p fs :
  save_uploaded_image E token f fs0 = (ret p, fs) ->
  exists img,
    Image_open E (read f) = ret img /\ Image_verify E img = ret tt /\ writes E img /\
    p = stored_path E token f img /\ fs = <[ p := written_file img ]> fs0.
Proof.
  intros Hsave.
  destruct (Image_open E (read f)) as [e|img] eqn:Hopen.
  { unfold save_uploaded_image, verify_pass in Hsave. rewrite Hopen in Hsave.
    run_in Hsave. discriminate. }
  destruct (Image_verify E img) as [e|[]] eqn:Hver.
  { unfold save_uploaded_image, verify_pass in Hsave. rewrite Hopen in Hsave.
    run_in Hsave. rewrite Hver in Hsave. run_in Hsave. discriminate. }
  exists img. split; [done |]. split; [done |].
  rewrite (save_uploaded_image_verified E token f fs0 img Hopen Hver) in Hsave.
  unfold writes, written_file. unfold Image_converted, Image_save in Hsave.
  destruct (String.eqb_spec (canonical_ext img) "jpg") as [Hjpg|Hjpg].
  - rewrite decide_True by done.
    destruct (Image_load E img) as [e|[]]; run_in Hsave; [discriminate |].
    destruct (Image_convert E "RGB" img) as [e|[]]; run_in Hsave; [discriminate |].
    destruct (Image_encode E (convert "RGB" img) (Some "JPEG") (Some 90%N))
      as [|e left]; run_in Hsave; [| discriminate].
    pose proof (f_equal snd Hsave) as Hfs. cbn [snd] in Hfs.
    assert (stored_path E token f img = p) as Hp.
    { exact (f_equal (fun r => match r with
                               | (inr q, _) => q
                               | _ => p
                               end) Hsave). }
    subst p. done.
  - rewrite decide_False by done.
    destruct (Image_load E img) as [e|[]]; run_in Hsave; [discriminate |].
    destruct (Image_encode E img (format img) None) as [|e left]; run_in Hsave;
      [| discriminate].
    pose proof (f_equal snd Hsave) as Hfs. cbn [snd] in Hfs.
    assert (stored_path E token f img = p) as Hp.
    { exact (f_equal (fun r => match r with
                               | (inr q, _) => q
                               | _ => p
                               end) Hsave). }
    subst p. done.
Qed.

(** The three ways [save_uploaded_image] ends: the verify pass refuses
    the bytes; Pillow reads, converts and encodes them and the file is
    written; or Pillow raises on the way, and then the store is as it
    was, but for a file that the encoder did not complete. *)
Lemma save_uploaded_image_cases E token f fs0 :
  (~ validates E (read f) /\
   save_uploaded_image E token f fs0 = (raise invalid_image, fs0)) \/
  exists img,
    Image_open E (read f) = ret img /\ Image_verify E img = ret tt /\
    ((writes E img /\
      save_uploaded_image E token f fs0
      = (ret (stored_path E token f img),
         <[ stored_path E token f img := written_file img ]> fs0)) \/
     (~ writes E img /\
      exists e fs,
        save_uploaded_image E token f fs0 = (raise e, fs) /\
        (fs = fs0 \/
         exists sf, fs = <[ stored_path E token f img := sf ]> fs0 /\
                    complete sf = false))).
Proof.
  destruct (Image_open E (read f)) as [e|img] eqn:Hopen.
  { left. assert (~ validates E (read f)) as Hinv.
    { intros (img & Hopen' & _). rewrite Hopen in Hopen'. discriminate. }
    split; [done |]. by apply save_uploaded_image_invalid. }
  destruct (Image_verify E img) as [e|[]] eqn:Hver.
  { left. assert (~ validates E (read f)) as Hinv.
    { intros (img' & Hopen' & Hver'). rewrite Hopen in Hopen'.
      injection Hopen' as <-. rewrite Hver in Hver'. discriminate. }
    split; [done |]. by apply save_uploaded_image_invalid. }
  right. exists img. split; [done |]. split; [done |].
  rewrite (save_uploaded_image_verified E token f fs0 img Hopen Hver).
  unfold writes, written_file, Image_converted, Image_save.
  destruct (String.eqb_spec (canonical_ext img) "jpg") as [Hjpg|Hjpg].
  - rewrite decide_True by done.
    destruct (Image_load E img) as [e|[]]; run.
    { right. split; [intros [H _]; discriminate |]. exists e, fs0. auto. }
    destruct (Image_convert E "RGB" img) as [e|[]]; run.
    { right. split; [intros [_ [H _]]; discriminate |]. exists e, fs0. auto. }
    destruct (Image_encode E (convert "RGB" img) (Some "JPEG") (Some 90%N))
      as [|e left]; run.
    { left. auto. }
    right. split; [intros [_ [_ H]]; discriminate |].
    eexists e, _. split; [reflexivity |].
    destruct left; [right; eexists; split; reflexivity | by left].
  - rewrite decide_False by done.
    destruct (Image_load E img) as [e|[]]; run.
    { right. split; [intros [H _]; discriminate |]. exists e, fs0. auto. }
    destruct (Image_encode E img (format img) None) as [|e left]; run.
    { left. auto. }
    right. split; [intros [_ H]; discriminate |].
    eexists e, _. split; [reflexivity |].
    destruct left; [right; eexists; split; reflexivity | by left].
Qed.

(** ** Bytes that do not decode *)

Lemma demo_text_invalid m : ~ validates (Demo.externals m) Demo.text.
Proof. intros (img & Hopen & _). discriminate Hopen. Qed.

Lemma demo_text_undecodable m : ~ decodes (Demo.externals m) Demo.text.
Proof. intros H. by apply (demo_text_invalid m), decodes_validates. Qed.

(** The claim C4 as it is worded fails on a JPEG stream that is cut
    off: its bytes do not decode, the pixel data being incomplete, but
    they open and pass [verify()]; the failure is then not the
    invalid-image error of the verify pass but the [OSError] that
    [convert] raises. *)
Lemma truncated_jpeg_passes_the_verify_pass :
  let E := Demo.externals None in
  ~ decodes E Demo.truncated_jpeg /\
  verify_pass E Demo.truncated_jpeg = ret tt /\
  save_uploaded_image E Demo.token_a
    {| filename := Some "bin.jpg"; read := Demo.truncated_jpeg |} ∅
  = (raise (OtherError "OSError" "image file is truncated"), ∅) /\
  OtherError "OSError" "image file is truncated" <> invalid_image.
Proof.
  split; [| split; [reflexivity | split; [reflexivity | discriminate]]].
  intros (img & Hopen & _ & Hload).
  vm_compute in Hopen. injection Hopen as <-. discriminate Hload.
Qed.

(** C4, amended.  Bytes that do not decode as a valid image make
    [save_uploaded_image] fail, and the upload store is returned as it
    was: no file is written.  When [Image.open] or [verify()] refuses
    the bytes, the failure is the invalid-image error with its message,
    raised by the verify pass; when the bytes pass both, the verify
    pass succeeds and the failure is the exception that reading the
    pixel data raises. *)
Theorem save_uploaded_image_rejects_undecodable
    (E : Externals) (token : N) (file_storage : FileStorage) (fs : FileStore) :
  ~ decodes E (read file_storage) ->
  exists e,
    save_uploaded_image E token file_storage fs = (raise e, fs) /\
    (~ validates E (read file_storage) ->
       verify_pass E (read file_storage)
         = raise (ValueError "Uploaded file is not a valid image") /\
       e = ValueError "Uploaded file is not a valid image") /\
    (forall img,
       Image_open E (read file_storage) = ret img -> Image_verify E img = ret tt ->
       verify_pass E (read file_storage) = ret tt /\ Image_load E img = raise e).
Proof.
  intros Hno.
  destruct (Image_open E (read file_storage)) as [e0|img] eqn:Hopen.
  { assert (~ validates E (read file_storage)) as Hinv.
    { intros (img & Hopen' & _). rewrite Hopen in Hopen'. discriminate. }
    destruct (save_uploaded_image_invalid E token file_storage fs Hinv) as [Hv Hs].
    exists invalid_image. split; [exact Hs |]. split; [done |].
    intros img Himg. discriminate Himg. }
  destruct (Image_verify E img) as [e0|[]] eqn:Hver.
  { assert (~ validates E (read file_storage)) as Hinv.
    { intros (img' & Hopen' & Hver'). rewrite Hopen in Hopen'.
      injection Hopen' as <-. rewrite Hver in Hver'. discriminate. }
    destruct (save_uploaded_image_invalid E token file_storage fs Hinv) as [Hv Hs].
    exists invalid_image. split; [exact Hs |]. split; [done |].
    intros img' Himg Hver'. injection Himg as <-. rewrite Hver in Hver'.
    discriminate. }
  destruct (Image_load E img) as [e|[]] eqn:Hload.
  - exists e. split.
    + apply (save_uploaded_image_unloadable E token file_storage fs img e Hopen Hver Hload).
    + split.
      * intros Hinv. exfalso. apply Hinv. by exists img.
      * intros img' Himg Hver'. injection Himg as <-.
        split; [| done]. apply verify_pass_ok. by exists img.
  - exfalso. apply Hno. by exists img.
Qed.

Lemma save_uploaded_image_rejects_undecodable_witness :
  save_uploaded_image (Demo.externals None) Demo.token_a
    {| filename := Some "report.png"; read := Demo.text |} ∅
  = (raise (ValueError "Uploaded file is not a valid image"), ∅).
Proof.
  destruct (save_uploaded_image_rejects_undecodable (Demo.externals None) Demo.token_a
              {| filename := Some "report.png"; read := Demo.text |} ∅)
    as (e & Hsave & Hinvalid & _); [apply demo_text_undecodable |].
  destruct Hinvalid as [_ ->]; [apply demo_text_invalid | exact Hsave].
Defined.

(** ** How the file is encoded *)

(** The claim C5 as it is worded fails on a valid image in a format
    Pillow reads and does not write: an XPM image decodes, its
    canonical extension is xpm, and [save] raises for want of an
    encoder, so that nothing is saved. *)
Lemma xpm_image_is_not_saved :
  let E := Demo.externals None in
  decodes E Demo.xpm /\
  (forall img, Image_open E Demo.xpm = ret img -> canonical_ext img = "xpm") /\
  save_uploaded_image E Demo.token_a
    {| filename := Some "icon.xpm"; read := Demo.xpm |} ∅
  = (raise (OtherError "KeyError" "'XPM'"), ∅).
Proof.
  split; [| split; [| reflexivity]].
  - eexists. repeat split; reflexivity.
  - intros img Hopen. vm_compute in Hopen. injection Hopen as <-. reflexivity.
Qed.

(** C5, amended.  For an image that passed the verify pass the canonical
    extension is the detected format in lower case with jpeg and jfif
    collapsed to jpg.  When it is jpg, the image is converted to
    three-channel RGB, whatever its mode was, and encoded as JPEG at
    quality 90; with any other canonical extension the image is encoded
    as it was opened, with the encoder of its detected format.  The
    file is stored when Pillow reads the pixels, converts and encodes
    without an exception; otherwise the exception is raised and no
    complete file is stored. *)
Theorem save_uploaded_image_encoding
    (E : Externals) (token : N) (file_storage : FileStorage) (fs : FileStore)
    (img : PILImage) :
  Image_open E (read file_storage) = ret img -> Image_verify E img = ret tt ->
  let path := stored_path E token file_storage img in
  let saved := save_uploaded_image E token file_storage fs in
  canonical_ext img = collapsed (Py.lower (Py.or_else (format img) "JPEG")) /\
  (canonical_ext img = "jpg" ->
     mode (convert "RGB" img) = "RGB" /\
     saved =
       match Image_load E img, Image_convert E "RGB" img with
       | inl e, _ | inr _, inl e => (raise e, fs)
       | inr _, inr _ =>
           match Image_encode E (convert "RGB" img) (Some "JPEG") (Some 90%N) with
           | Encoded =>
               (ret path,
                <[ path := {| encoded := convert "RGB" img; encoder := Some "JPEG";
                              quality := Some 90%N; complete := true |} ]> fs)
           | EncodeError e file_left =>
               (raise e,
                if file_left
                then <[ path := {| encoded := convert "RGB" img; encoder := Some "JPEG";
                                   quality := Some 90%N; complete := false |} ]> fs
                else fs)
           end
       end) /\
  (canonical_ext img <> "jpg" ->
     exists fmt,
       format img = Some fmt /\ canonical_ext img = Py.lower fmt /\
       saved =
         match Image_load E img with
         | inl e => (raise e, fs)
         | inr _ =>
             match Image_encode E img (Some fmt) None with
             | Encoded =>
                 (ret path,
                  <[ path := {| encoded := img; encoder := Some fmt;
                                quality := None; complete := true |} ]> fs)
             | EncodeError e file_left =>
                 (raise e,
                  if file_left
                  then <[ path := {| encoded := img; encoder := Some fmt;
                                     quality := None; complete := false |} ]> fs
                  else fs)
             end
         end).
Proof.
  intros Hopen Hver path saved. subst saved path.
  rewrite (save_uploaded_image_verified E token _ fs img Hopen Hver).
  split; [apply canonical_ext_collapsed |]. split.
  - intros Hjpg. split; [reflexivity |]. rewrite Hjpg. cbn [String.eqb Ascii.eqb Bool.eqb].
    unfold Image_converted, Image_save.
    destruct (Image_load E img) as [e|[]]; run; [reflexivity |].
    destruct (Image_convert E "RGB" img) as [e|[]]; run; [reflexivity |].
    destruct (Image_encode E (convert "RGB" img) (Some "JPEG") (Some 90%N));
      reflexivity.
  - intros Hne. destruct (format_of_other_ext img Hne) as (fmt & Hf & _ & Hext).
    exists fmt. split; [done |]. split; [done |].
    destruct (String.eqb_spec (canonical_ext img) "jpg"); [done |].
    unfold Image_save. rewrite Hf.
    destruct (Image_load E img) as [e|[]]; run; [reflexivity |].
    destruct (Image_encode E img (Some fmt) None); reflexivity.
Qed.

Lemma save_uploaded_image_encoding_witness :
  save_uploaded_image (Demo.externals None) Demo.token_a
    {| filename := Some "scan.png"; read := Demo.jpeg |} ∅
  = (ret "uploads/123e4567-e89b-42d3-a456-426614174000_scan.jpg",
     {[ "uploads/123e4567-e89b-42d3-a456-426614174000_scan.jpg" :=
          {| encoded := {| fp := Demo.jpeg; format := None; mode := "RGB" |};
             encoder := Some "JPEG"; quality := Some 90%N; complete := true |} ]}) /\
  exists fmt,
    format {| fp := Demo.png; format := Some "PNG"; mode := "RGBA" |} = Some fmt /\
    canonical_ext {| fp := Demo.png; format := Some "PNG"; mode := "RGBA" |}
    = Py.lower fmt /\
    save_uploaded_image (Demo.externals None) Demo.token_a
      {| filename := Some "scan.jpg"; read := Demo.png |} ∅
    = (ret "uploads/123e4567-e89b-42d3-a456-426614174000_scan.png",
       {[ "uploads/123e4567-e89b-42d3-a456-426614174000_scan.png" :=
            {| encoded := {| fp := Demo.png; format := Some "PNG"; mode := "RGBA" |};
               encoder := Some fmt; quality := None; complete := true |} ]}).
Proof.
  split.
  - destruct (save_uploaded_image_encoding (Demo.externals None) Demo.token_a
                {| filename := Some "scan.png"; read := Demo.jpeg |} ∅
                {| fp := Demo.jpeg; format := Some "JPEG"; mode := "L" |})
      as (_ & Hjpg & _); [reflexivity | reflexivity |].
    destruct Hjpg as [_ Hsaved]; [vm_compute; reflexivity | exact Hsaved].
  - destruct (save_uploaded_image_encoding (Demo.externals None) Demo.token_a
                {| filename := Some "scan.jpg"; read := Demo.png |} ∅
                {| fp := Demo.png; format := Some "PNG"; mode := "RGBA" |})
      as (_ & _ & Hother); [reflexivity | reflexivity |].
    destruct Hother as (fmt & Hfmt & Hext & Hsaved); [vm_compute; discriminate |].
    exists fmt. split; [exact Hfmt |]. split; [exact Hext |].
    injection Hfmt as <-. exact Hsaved.
Defined.

(** ** The upload route *)

Lemma no_file_iff (file : option FileStorage) :
  no_file file = true <->
  file = None \/ exists f, file = Some f /\ (filename f = None \/ filename f = Some "").
Proof.
  destruct file as [f|]; simpl.
  - destruct (filename f) as [[|c name]|] eqn:Hname; simpl; split;
      try discriminate; eauto.
    intros [? | (g & Hg & [? | ?])]; simplify_eq.
  - split; eauto.
Qed.

Lemma named_file_present (f : FileStorage) (name : string) :
  filename f = Some name -> name <> "" -> no_file (Some f) = false.
Proof. intros Hname Hne. simpl. rewrite Hname. by destruct name. Qed.

Lemma world_eta (w : World) :
  {| files := files w; db := db w; stdout := stdout w |} = w.
Proof. by destruct w. Qed.

(** *** The two loops over the results *)

Lemma read_boxes_spec names acc cs :
  snd (read_boxes names acc cs) = failure cs /\
  forall x, x ∈ fst (read_boxes names acc cs) <->
            x ∈ acc \/ exists cls, cls ∈ yielded cs /\ x = label names cls.
Proof.
  revert acc. induction cs as [|c cs IH|e]; intros acc; cbn [read_boxes failure yielded].
  - split; [reflexivity |]. intros x. cbn [fst]. split; [by left |].
    intros [? | (cls & Hin & _)]; [done | by apply elem_of_nil in Hin].
  - destruct (IH ({[ label names c ]} ∪ acc)) as [Hfail Hset]. split; [exact Hfail |].
    intros x. rewrite Hset, elem_of_union, elem_of_singleton. split.
    + intros [[-> | ?] | (cls & Hin & ->)]; [| by left |].
      * right. exists c. by rewrite elem_of_cons; auto.
      * right. exists cls. by rewrite elem_of_cons; auto.
    + intros [? | (cls & Hin & ->)]; [by left; right |].
      apply elem_of_cons in Hin as [-> | Hin]; [by left; left | right; eauto].
  - split; [reflexivity |]. intros x. cbn [fst]. split; [by left |].
    intros [? | (cls & Hin & _)]; [done | by apply elem_of_nil in Hin].
Qed.

Lemma is_label_done table x : ~ is_label table Done x.
Proof. intros (res & cs & cls & Hin & _). by apply elem_of_nil in Hin. Qed.

Lemma is_label_broken table e x : ~ is_label table (Broken e) x.
Proof. intros (res & cs & cls & Hin & _). by apply elem_of_nil in Hin. Qed.

Lemma is_label_next table res rest x :
  is_label table (Next res rest) x <->
  (exists cs cls, boxes res = Some cs /\ cls ∈ yielded cs /\ x = label table cls) \/
  (boxes_failure res = None /\ is_label table rest x).
Proof.
  unfold is_label. cbn [yielded reached]. split.
  - intros (r & cs & cls & Hin & Hb & Hcls & ->).
    apply elem_of_cons in Hin as [-> | Hin]; [left; eauto |].
    right. destruct (boxes_failure res); [by apply elem_of_nil in Hin |].
    split; [done |]. eauto 8.
  - intros [(cs & cls & Hb & Hcls & ->) | (Hnone & r & cs & cls & Hin & Hb & Hcls & ->)].
    + exists res, cs, cls. by rewrite elem_of_cons; auto.
    + exists r, cs, cls. rewrite Hnone, elem_of_cons. auto.
Qed.

(** The loops end with the first exception, and the set they leave
    holds what was there and the labels that were read. *)
Lemma read_results_spec names acc rs :
  snd (read_results names acc rs) = first_failure rs /\
  forall x, x ∈ fst (read_results names acc rs) <-> x ∈ acc \/ is_label names rs x.
Proof.
  revert acc. induction rs as [|res rest IH|e]; intros acc;
    cbn [read_results first_failure].
  - split; [reflexivity |]. intros x. cbn [fst]. split; [by left |].
    intros [? | H]; [done | by apply is_label_done in H].
  - unfold boxes_failure at 1. destruct (boxes res) as [cs|] eqn:Hb.
    + destruct (read_boxes_spec names acc cs) as [Hfail Hset].
      destruct (read_boxes names acc cs) as [s1 [e1|]] eqn:Hrb;
        cbn [fst snd] in Hfail, Hset; rewrite <- Hfail.
      * split; [reflexivity |]. intros x. cbn [fst].
        rewrite Hset, is_label_next. unfold boxes_failure. rewrite Hb, <- Hfail. split.
        -- intros [? | (cls & Hin & ->)]; [by left | right; left; eauto].
        -- intros [? | [(cs' & cls & Heq & Hin & ->) | [Hnone _]]];
             [by left | | discriminate].
           injection Heq as <-. right. eauto.
      * destruct (IH s1) as [Hfail' Hset']. split; [exact Hfail' |].
        intros x. rewrite Hset', Hset, is_label_next.
        unfold boxes_failure. rewrite Hb, <- Hfail. split.
        -- intros [[? | (cls & Hin & ->)] | ?]; [by left | right; left; eauto | by right; right].
        -- intros [? | [(cs' & cls & Heq & Hin & ->) | [_ ?]]];
             [by left; left | | by right].
           injection Heq as <-. left. right. eauto.
    + destruct (IH acc) as [Hfail' Hset']. split; [exact Hfail' |].
      intros x. rewrite Hset', is_label_next. unfold boxes_failure. rewrite Hb. split.
      * intros [? | ?]; [by left | by right; right].
      * intros [? | [(cs' & cls & Heq & _) | [_ ?]]]; [by left | discriminate | by right].
  - split; [reflexivity |]. intros x. cbn [fst]. split; [by left |].
    intros [? | H]; [done | by apply is_label_broken in H].
Qed.

(** The "Run model" block always hands a set on. *)
Lemma run_model_total E fs path out :
  exists s out', run_model E fs path out = ret (s, out').
Proof.
  unfold run_model. destruct (model E) as [m|]; [| eauto].
  destruct (predict m fs path) as [e|results]; [eauto |].
  destruct (read_results (names m) ∅ results) as [s [e|]]; eauto.
Qed.

(** What the block returns when the model call returned. *)
Lemma run_model_read E fs path out m results s out' :
  model E = Some m -> predict m fs path = ret results ->
  run_model E fs path out = ret (s, out') ->
  (forall x, x ∈ s <-> is_label (names m) results x) /\
  out' = match first_failure results with
         | Some e => (out ++ [inference_error e])%list
         | None => out
         end.
Proof.
  intros Hm Hres Hrun. unfold run_model in Hrun. rewrite Hm, Hres in Hrun.
  unfold ret in Hrun. cbv beta iota in Hrun.
  destruct (read_results_spec (names m) ∅ results) as [Hfail Hset].
  destruct (read_results (names m) ∅ results) as [s1 [e1|]];
    cbn [fst snd] in Hfail, Hset; rewrite <- Hfail;
    injection Hrun as <- <-; (split; [| reflexivity]);
    intros x; rewrite Hset, elem_of_empty; tauto.
Qed.

Lemma insert_fresh token (r : Row) (table : list Row) :
  id r = UUID.str token -> fresh token table -> insert r table = ret (table ++ [r])%list.
Proof.
  intros Hid Hfresh. unfold insert.
  replace (existsb _ table) with false; [done |].
  symmetry. apply not_true_is_false. intros Hex.
  apply existsb_exists in Hex as (r' & Hin & Heq).
  apply String.eqb_eq in Heq. unfold fresh in Hfresh.
  rewrite List.Forall_forall in Hfresh. apply (Hfresh r' Hin). congruence.
Qed.

Lemma upload_invalid E tf tr now req w f name :
  file req = Some f -> filename f = Some name -> name <> "" ->
  ~ validates E (read f) ->
  upload E tf tr now req w = (Body "Uploaded file is not a valid image" 400%N, w).
Proof.
  intros Hfile Hname Hne Hno. unfold upload. rewrite Hfile.
  rewrite (named_file_present f name Hname Hne).
  destruct (save_uploaded_image_invalid E tf f (files w) Hno) as [_ ->].
  unfold raise. by rewrite world_eta.
Qed.

Lemma upload_save_failed E tf tr now req w f name e fs :
  file req = Some f -> filename f = Some name -> name <> "" ->
  save_uploaded_image E tf f (files w) = (raise e, fs) ->
  upload E tf tr now req w
  = (answer_to e, {| files := fs; db := db w; stdout := stdout w |}).
Proof.
  intros Hfile Hname Hne Hsave. unfold upload. rewrite Hfile.
  rewrite (named_file_present f name Hname Hne), Hsave.
  unfold raise. by destruct e.
Qed.

(** An upload with a named file that Pillow reads and encodes, under a
    fresh row id, is stored, classified and recorded. *)
Lemma upload_accepted E tf tr now req w f name img :
  file req = Some f -> filename f = Some name -> name <> "" ->
  Image_open E (read f) = ret img -> Image_verify E img = ret tt -> writes E img ->
  fresh tr (db w) ->
  let path := stored_path E tf f img in
  let fs := <[ path := written_file img ]> (files w) in
  exists s out,
    run_model E fs path (stdout w) = ret (s, out) /\
    upload E tf tr now req w =
      (Redirect analytics_url,
       {| files := fs; db := (db w ++ [upload_row tr now req path s])%list;
          stdout := out |}).
Proof.
  intros Hfile Hname Hne Hopen Hver Hw Hfresh path fs.
  destruct (run_model_total E fs path (stdout w)) as (s & out & Hrun).
  exists s, out. split; [exact Hrun |].
  unfold upload. rewrite Hfile.
  rewrite (named_file_present f name Hname Hne).
  rewrite (save_uploaded_image_ok E tf f (files w) img Hopen Hver Hw).
  unfold ret. fold path. fold fs. unfold ret in Hrun. rewrite Hrun.
  fold (upload_row tr now req path s).
  rewrite (insert_fresh tr) by done. reflexivity.
Qed.

(** C9.  A request whose file field is missing, or whose file has no or
    an empty filename, is answered with status 400 and the message
    "No file uploaded." and leaves the upload store and the table as
    they were; an upload whose image validation fails is answered with
    status 400 and the validator's message, with the same state. *)
Theorem upload_rejections
    (E : Externals) (token_file token_row : N) (now : datetime.t)
    (req : Request) (w : World) :
  (file req = None \/
   (exists f, file req = Some f /\ (filename f = None \/ filename f = Some "")) ->
   upload E token_file token_row now req w = (Body "No file uploaded." 400%N, w)) /\
  (forall f name,
     file req = Some f -> filename f = Some name -> name <> "" ->
     ~ validates E (read f) ->
     upload E token_file token_row now req w
       = (Body (str_exn invalid_image) 400%N, w) /\
     str_exn invalid_image = "Uploaded file is not a valid image").
Proof.
  split.
  - intros Hmiss. apply no_file_iff in Hmiss. unfold upload.
    destruct (file req) as [f|]; [| reflexivity]. by rewrite Hmiss.
  - intros f name Hfile Hname Hne Hno. split; [| reflexivity].
    by apply (upload_invalid E _ _ _ _ _ f name).
Qed.

Lemma upload_rejections_witness :
  upload (Demo.externals None) Demo.token_a Demo.token_b Demo.now
    {| file := Some {| filename := Some ""; read := Demo.png |};
       form_location := None; form_incharge := None |} Demo.world0
  = (Body "No file uploaded." 400%N, Demo.world0) /\
  upload (Demo.externals None) Demo.token_a Demo.token_b Demo.now
    (Demo.request "holiday.jpg" Demo.text) Demo.world0
  = (Body "Uploaded file is not a valid image" 400%N, Demo.world0).
Proof.
  split.
  - apply (upload_rejections (Demo.externals None) Demo.token_a Demo.token_b Demo.now
             {| file := Some {| filename := Some ""; read := Demo.png |};
                form_location := None; form_incharge := None |} Demo.world0).
    right. eexists. split; [reflexivity |]. right. reflexivity.
  - destruct (upload_rejections (Demo.externals None) Demo.token_a Demo.token_b
                Demo.now (Demo.request "holiday.jpg" Demo.text) Demo.world0)
      as [_ Hinvalid].
    apply (Hinvalid {| filename := Some "holiday.jpg"; read := Demo.text |}
                    "holiday.jpg");
      [reflexivity | reflexivity | discriminate | apply demo_text_invalid].
Defined.

(** The claim C10 as it is worded fails on a valid image that Pillow
    cannot write: under the allowed name icon.png, the bytes of an XPM
    image decode, and the upload ends with the [KeyError] of [save],
    which is not caught; nothing is stored and no row is inserted. *)
Lemma decodable_xpm_is_not_accepted :
  let E := Demo.externals None in
  decodes E Demo.xpm /\ allowed_image "icon.png" = true /\
  upload E Demo.token_a Demo.token_b Demo.now (Demo.request "icon.png" Demo.xpm)
    Demo.world0
  = (Unhandled (OtherError "KeyError" "'XPM'"), Demo.world0).
Proof.
  split; [| split; vm_compute; reflexivity].
  eexists. repeat split; reflexivity.
Qed.

(** C10, amended.  No operation consults the allowed-extension sets.
    Whatever the name of the uploaded file (with an allowed extension,
    another one, or none): bytes that pass [Image.open] and [verify()]
    and that Pillow loads and encodes are accepted and stored; bytes
    that [Image.open] or [verify()] refuses are refused with status
    400; bytes that pass both and whose pixel data cannot be read are
    not stored either; and whenever [save_uploaded_image] raises, no
    row is inserted, the answer being status 400 for a [ValueError] and
    the unhandled exception otherwise. *)
Theorem upload_ignores_extension
    (E : Externals) (token_file token_row : N) (now : datetime.t)
    (req : Request) (w : World) (f : FileStorage) (name : string)
    (allowed : bool) :
  file req = Some f -> filename f = Some name -> name <> "" ->
  allowed_image name = allowed ->
  (forall img,
     Image_open E (read f) = ret img -> Image_verify E img = ret tt ->
     writes E img -> fresh token_row (db w) ->
     exists w',
       upload E token_file token_row now req w = (Redirect analytics_url, w') /\
       files w' !! stored_path E token_file f img = Some (written_file img) /\
       length (db w') = S (length (db w))) /\
  (~ validates E (read f) ->
     upload E token_file token_row now req w
       = (Body "Uploaded file is not a valid image" 400%N, w)) /\
  (forall img e,
     Image_open E (read f) = ret img -> Image_verify E img = ret tt ->
     Image_load E img = raise e ->
     upload E token_file token_row now req w
       = (match e with
          | ValueError m => Body m 400%N
          | OtherError _ _ => Unhandled e
          end, w)) /\
  (forall e fs,
     save_uploaded_image E token_file f (files w) = (raise e, fs) ->
     upload E token_file token_row now req w
       = (match e with
          | ValueError m => Body m 400%N
          | OtherError _ _ => Unhandled e
          end, {| files := fs; db := db w; stdout := stdout w |})).
Proof.
  intros Hfile Hname Hne _. split; [| split; [| split]].
  - intros img Hopen Hver Hw Hfresh.
    destruct (upload_accepted E token_file token_row now req w f name img
                Hfile Hname Hne Hopen Hver Hw Hfresh) as (s & out & _ & ->).
    eexists. split; [reflexivity |]. cbn [files db]. split.
    + by rewrite lookup_insert_eq.
    + rewrite length_app. cbn [length]. lia.
  - intros Hno. by apply (upload_invalid E _ _ _ _ _ f name).
  - intros img e Hopen Hver Hload.
    rewrite (upload_save_failed E token_file token_row now req w f name e (files w)
               Hfile Hname Hne).
    + by rewrite world_eta.
    + by apply (save_uploaded_image_unloadable E token_file f (files w) img e).
  - intros e fs Hsave.
    apply (upload_save_failed E token_file token_row now req w f name e fs
             Hfile Hname Hne Hsave).
Qed.

Lemma world0_fresh token : fresh token (db Demo.world0).
Proof. constructor. Qed.

Lemma demo_writes_png m :
  writes (Demo.externals m) {| fp := Demo.png; format := Some "PNG"; mode := "RGBA" |}.
Proof. split; reflexivity. Qed.

Lemma demo_writes_jpeg m :
  writes (Demo.externals m) {| fp := Demo.jpeg; format := Some "JPEG"; mode := "L" |}.
Proof. split; [reflexivity |]. split; reflexivity. Qed.

Lemma upload_ignores_extension_witness :
  (allowed_image "notes.txt" = false /\
   exists w',
     upload (Demo.externals None) Demo.token_a Demo.token_b Demo.now
       (Demo.request "notes.txt" Demo.png) Demo.world0 = (Redirect analytics_url, w') /\
     is_Some (files w' !! "uploads/123e4567-e89b-42d3-a456-426614174000_notes.png") /\
     length (db w') = 1%nat) /\
  (allowed_image "photo.png" = true /\
   upload (Demo.externals None) Demo.token_a Demo.token_b Demo.now
     (Demo.request "photo.png" Demo.text) Demo.world0
   = (Body "Uploaded file is not a valid image" 400%N, Demo.world0)) /\
  (allowed_image "bin.jpg" = true /\
   upload (Demo.externals None) Demo.token_a Demo.token_b Demo.now
     (Demo.request "bin.jpg" Demo.truncated_jpeg) Demo.world0
   = (Unhandled (OtherError "OSError" "image file is truncated"), Demo.world0)) /\
  (allowed_image "icon.png" = true /\
   upload (Demo.externals None) Demo.token_a Demo.token_b Demo.now
     (Demo.request "icon.png" Demo.xpm) Demo.world0
   = (Unhandled (OtherError "KeyError" "'XPM'"),
      {| files := ∅; db := []; stdout := [] |})).
Proof.
  split; [| split; [| split]]; (split; [vm_compute; reflexivity |]).
  - destruct (upload_ignores_extension (Demo.externals None) Demo.token_a Demo.token_b
                Demo.now (Demo.request "notes.txt" Demo.png) Demo.world0
                {| filename := Some "notes.txt"; read := Demo.png |} "notes.txt" false)
      as [Haccept _]; [reflexivity | reflexivity | discriminate | vm_compute; reflexivity |].
    destruct (Haccept {| fp := Demo.png; format := Some "PNG"; mode := "RGBA" |})
      as (w' & Hup & Hfile & Hlen);
      [reflexivity | reflexivity | apply demo_writes_png | apply world0_fresh |].
    exists w'. split; [exact Hup |]. split; [| exact Hlen].
    eexists. exact Hfile.
  - destruct (upload_ignores_extension (Demo.externals None) Demo.token_a Demo.token_b
                Demo.now (Demo.request "photo.png" Demo.text) Demo.world0
                {| filename := Some "photo.png"; read := Demo.text |} "photo.png" true)
      as (_ & Hrefuse & _);
      [reflexivity | reflexivity | discriminate | vm_compute; reflexivity |].
    apply Hrefuse, demo_text_invalid.
  - destruct (upload_ignores_extension (Demo.externals None) Demo.token_a Demo.token_b
                Demo.now (Demo.request "bin.jpg" Demo.truncated_jpeg) Demo.world0
                {| filename := Some "bin.jpg"; read := Demo.truncated_jpeg |} "bin.jpg"
                true)
      as (_ & _ & Hload & _);
      [reflexivity | reflexivity | discriminate | vm_compute; reflexivity |].
    apply (Hload {| fp := Demo.truncated_jpeg; format := Some "JPEG"; mode := "L" |}
                 (OtherError "OSError" "image file is truncated")); reflexivity.
  - destruct (upload_ignores_extension (Demo.externals None) Demo.token_a Demo.token_b
                Demo.now (Demo.request "icon.png" Demo.xpm) Demo.world0
                {| filename := Some "icon.png"; read := Demo.xpm |} "icon.png" true)
      as (_ & _ & _ & Hsave);
      [reflexivity | reflexivity | discriminate | vm_compute; reflexivity |].
    apply (Hsave (OtherError "KeyError" "'XPM'") ∅). reflexivity.
Defined.

(** ** The detection block *)

(** The claim C6 as it is worded fails when the inference fails after
    labels were read: the results come one at a time, the first
    carries a box and the second cannot be had.  The exception is
    caught and logged, and the detected set is not empty: the row is
    inserted with the label of the first result, not with "None". *)
Lemma later_failure_keeps_the_labels :
  let answer :=
    upload (Demo.externals (Some (Demo.breaking_yolo Demo.labels)))
      Demo.token_a Demo.token_b Demo.now (Demo.request "bin.png" Demo.png)
      Demo.world0 in
  fst answer = Redirect analytics_url /\
  map detected_classes (db (snd answer)) = [Some "large-garbage"] /\
  stdout (snd answer) = ["Model inference error: out of memory"].
Proof. vm_compute. repeat split; reflexivity. Qed.

(** C6, amended.  The detection step never raises: an exception of the
    inference is caught and logged, and the upload is answered with the
    redirect and its row is inserted in every case.  When the model
    call itself raises, the detected set is empty and the row carries
    "None"; when the exception comes while the results are read, the
    set holds the labels read until then; without a classifier the set
    is the sentinel. *)
Theorem classifier_failure_contained
    (E : Externals) (token_file token_row : N) (now : datetime.t)
    (req : Request) (w : World) (f : FileStorage) (name : string) (img : PILImage) :
  file req = Some f -> filename f = Some name -> name <> "" ->
  Image_open E (read f) = ret img -> Image_verify E img = ret tt -> writes E img ->
  fresh token_row (db w) ->
  let path := stored_path E token_file f img in
  (forall fs p o, exists s o', run_model E fs p o = ret (s, o')) /\
  exists s out w',
    run_model E (files w') path (stdout w) = ret (s, out) /\
    upload E token_file token_row now req w = (Redirect analytics_url, w') /\
    db w' = (db w ++ [upload_row token_row now req path s])%list /\
    stdout w' = out /\
    (model E = None -> s = {[ "model_missing" ]} /\ out = stdout w) /\
    (forall m e,
       model E = Some m -> predict m (files w') path = raise e ->
       s = ∅ /\
       detected_classes (upload_row token_row now req path s) = Some "None" /\
       out = (stdout w ++ ["Model inference error: " +:+ str_exn e])%list) /\
    (forall m results,
       model E = Some m -> predict m (files w') path = ret results ->
       (forall x, x ∈ s <-> is_label (names m) results x) /\
       out = match first_failure results with
             | Some e => (stdout w ++ ["Model inference error: " +:+ str_exn e])%list
             | None => stdout w
             end).
Proof.
  intros Hfile Hname Hne Hopen Hver Hw Hfresh path.
  split; [intros fs p o; apply run_model_total |].
  destruct (upload_accepted E token_file token_row now req w f name img
              Hfile Hname Hne Hopen Hver Hw Hfresh) as (s & out & Hrun & Hup).
  fold path in Hrun, Hup. exists s, out. eexists.
  split; [| split; [exact Hup |]]; cbn [files db stdout]; [exact Hrun |].
  split; [reflexivity |]. split; [reflexivity |]. split; [| split].
  - intros Hnone. unfold run_model in Hrun. rewrite Hnone in Hrun.
    by injection Hrun as <- <-.
  - intros m e Hm He. unfold run_model in Hrun. rewrite Hm, He in Hrun.
    unfold raise, ret in Hrun. cbv beta iota in Hrun.
    injection Hrun as <- <-. done.
  - intros m results Hm Hres.
    apply (run_model_read E _ path (stdout w) m results s out Hm Hres Hrun).
Qed.

Lemma classifier_failure_contained_witness :
  exists w',
    upload (Demo.externals (Some Demo.failing_yolo)) Demo.token_a Demo.token_b Demo.now
      (Demo.request "bin.png" Demo.png) Demo.world0 = (Redirect analytics_url, w') /\
    map detected_classes (db w') = [Some "None"] /\
    stdout w' = ["Model inference error: out of memory"].
Proof.
  destruct (classifier_failure_contained (Demo.externals (Some Demo.failing_yolo))
              Demo.token_a Demo.token_b Demo.now (Demo.request "bin.png" Demo.png)
              Demo.world0 {| filename := Some "bin.png"; read := Demo.png |} "bin.png"
              {| fp := Demo.png; format := Some "PNG"; mode := "RGBA" |})
    as (_ & s & out & w' & _ & Hup & Hdb & Hout & _ & Hfail & _);
    [reflexivity | reflexivity | discriminate | reflexivity | reflexivity
    | apply demo_writes_png | apply world0_fresh |].
  destruct (Hfail Demo.failing_yolo (OtherError "RuntimeError" "out of memory"))
    as (-> & Hnone & ->); [reflexivity | reflexivity |].
  exists w'. split; [exact Hup |]. split; [| exact Hout].
  rewrite Hdb. reflexivity.
Defined.

(** ** The location resolver *)

Lemma parse_location_text (U : Py.Unicode) (text : string) :
  parse_location_to_coords U (Some text)
  = ret (default CITY_COORDS (first_two_floats U text)).
Proof.
  unfold parse_location_to_coords, first_two_floats.
  destruct text as [|c text]; [reflexivity |].
  cbn [Py.truthy negb Py.or_else]. fold (location_parts (String c text)).
  destruct (location_parts (String c text)) as [|p0 [|p1 rest]]; cbn [length Nat.leb].
  - cbn [bind ret]. by destruct (_ || _).
  - cbn [bind ret]. by destruct (_ || _).
  - cbn [nth]. destruct (Py.float U p0) as [e0|lat]; cbn [bind catch ret default];
      [by destruct (_ || _) |].
    destruct (Py.float U p1) as [e1|lon]; cbn [bind catch ret default];
      [by destruct (_ || _) | reflexivity].
Qed.

Lemma parse_location_total (U : Py.Unicode) (o : option string) :
  exists c, parse_location_to_coords U o = ret c.
Proof.
  destruct o as [text|]; [| by exists CITY_COORDS].
  rewrite parse_location_text. eauto.
Qed.

(** The claim C2 as it is worded fails on a text that [float] accepts
    and that is no real number: whatever the digit table, "nan, nan"
    is resolved to a pair of NaNs, not to the default city. *)
Lemma nan_location_is_not_default :
  ~ exists U : Py.Unicode,
      forall text : string,
        text <> "" ->
        ~ (exists p0 p1 rest, location_parts text = p0 :: p1 :: rest /\
             parses_as_real U p0 /\ parses_as_real U p1) ->
        parse_location_to_coords U (Some text) = ret CITY_COORDS.
Proof.
  intros [U Hclaim]. specialize (Hclaim "nan, nan").
  assert (parse_location_to_coords U (Some "nan, nan") = ret (Py.NaN, Py.NaN)) as Hnan
    by reflexivity.
  rewrite Hnan in Hclaim. enough (ret (Py.NaN, Py.NaN) = ret CITY_COORDS) by discriminate.
  apply Hclaim; [discriminate |].
  intros (p0 & p1 & rest & Hparts & (x & Hx & Hreal) & _).
  injection Hparts as <- _ _. vm_compute in Hx. injection Hx as <-. discriminate Hreal.
Qed.

(** C2, amended.  [parse_location_to_coords] never fails.  An empty or
    absent text gives the default city (34.3700, 73.4711); "34.5, 73.9"
    gives (34.5, 73.9); a text whose first two comma-separated parts are
    both accepted by [float] gives these two floats, and every other
    text gives the default city, whether or not it names the city or the
    region.  [float] accepts, around the numeral, the whitespace of
    Unicode and, in it, the decimal digits of every script; it accepts
    the spellings inf, infinity and nan besides the decimal numerals,
    and it gives an infinity for a numeral too large for a double. *)
Theorem parse_location_to_coords_resolves (U : Py.Unicode) :
  (forall o, exists c, parse_location_to_coords U o = ret c) /\
  CITY_COORDS = (Py.literal 34.3700, Py.literal 73.4711) /\
  parse_location_to_coords U None = ret CITY_COORDS /\
  parse_location_to_coords U (Some "") = ret CITY_COORDS /\
  parse_location_to_coords U (Some "34.5, 73.9")
    = ret (Py.literal 34.5, Py.literal 73.9) /\
  parse_location_to_coords U (Some "garbage text") = ret CITY_COORDS /\
  parse_location_to_coords U (Some "Muzaffarabad, Azad Kashmir") = ret CITY_COORDS /\
  parse_location_to_coords U (Some "inf, nan") = ret (Py.Inf false, Py.NaN) /\
  parse_location_to_coords U (Some "1e999, -1e-999") = ret (Py.Inf false, Py.NegZero) /\
  parse_location_to_coords U
    (Some ("34.5" +:+ Demo.nbsp +:+ "," +:+ Demo.nbsp +:+ "73.9"))
    = ret (Py.literal 34.5, Py.literal 73.9) /\
  parse_location_to_coords Demo.unicode (Some (Demo.arabic_34 +:+ ".5, 73.9"))
    = ret (Py.literal 34.5, Py.literal 73.9) /\
  (forall text,
     parse_location_to_coords U (Some text)
     = match first_two_floats U text with
       | Some coords => ret coords
       | None => ret CITY_COORDS
       end).
Proof.
  split; [exact (parse_location_total U) |].
  do 10 (split; [vm_compute; reflexivity |]).
  intros text. rewrite parse_location_text. by destruct (first_two_floats U text).
Qed.

(** ** Substrings up to case *)

Lemma startswith_spec (needle hay : string) :
  Py.startswith needle hay = true <-> exists post, hay = needle +:+ post.
Proof.
  revert hay. induction needle as [|a needle IH]; intros hay; simpl.
  - split; eauto.
  - destruct hay as [|b hay].
    + split; [discriminate | intros [post Hpost]; discriminate].
    + destruct (Ascii.eqb_spec a b) as [-> | Hab].
      * rewrite IH. split; intros [post Hpost]; exists post; simpl in *; congruence.
      * split; [discriminate | intros [post Hpost]; simpl in Hpost; congruence].
Qed.

Lemma contains_unfold (needle hay : string) :
  Py.contains needle hay
  = Py.startswith needle hay ||
    match hay with
    | EmptyString => false
    | String _ hay' => Py.contains needle hay'
    end.
Proof. destruct hay; simpl; by destruct (Py.startswith _ _). Qed.

Lemma contains_spec (needle hay : string) :
  Py.contains needle hay = true <-> exists pre post, hay = pre +:+ needle +:+ post.
Proof.
  induction hay as [|c hay IH]; rewrite contains_unfold, orb_true_iff, startswith_spec.
  - split.
    + intros [[post Hpost] | ?]; [| discriminate]. by exists "", post.
    + intros (pre & post & Heq). left. symmetry in Heq.
      apply append_eq_nil in Heq as [-> Heq]. apply append_eq_nil in Heq as [-> ->].
      by exists "".
  - rewrite IH. split.
    + intros [[post Hpost] | (pre & post & ->)].
      * by exists "", post.
      * by exists (String c pre), post.
    + intros ([|d pre] & post & Heq); simpl in Heq.
      * left. eauto.
      * right. injection Heq as -> ->. eauto.
Qed.

Lemma lower_app (a b : string) : Py.lower (a +:+ b) = Py.lower a +:+ Py.lower b.
Proof. induction a as [|c a IH]; simpl; [done | by rewrite IH]. Qed.

Lemma lower_split (s x y : string) :
  Py.lower s = x +:+ y -> exists a b, s = a +:+ b /\ Py.lower a = x /\ Py.lower b = y.
Proof.
  revert s. induction x as [|c x IH]; intros s Heq; simpl in Heq.
  - by exists "", s.
  - destruct s as [|d s]; [discriminate |]. simpl in Heq. injection Heq as Hc Heq.
    destruct (IH s Heq) as (a & b & -> & Ha & Hb).
    exists (String d a), b. simpl. by rewrite Hc, Ha.
Qed.

(** [kw in s.lower()] is the case-insensitive substring test. *)
Lemma contains_lower_iff (kw s : string) :
  Py.contains kw (Py.lower s) = true <-> ci_substring kw s.
Proof.
  rewrite contains_spec. unfold ci_substring. split.
  - intros (pre & post & Heq).
    apply lower_split in Heq as (a & b & -> & _ & Hb).
    apply lower_split in Hb as (mid & c & -> & Hmid & _). eauto.
  - intros (pre & mid & post & -> & <-).
    exists (Py.lower pre), (Py.lower post). by rewrite !lower_app.
Qed.

(** ** The analytics route *)

Lemma tally_row_step (U : Py.Unicode) (t : Tally) (r : Row) :
  exists t',
    tally_row U t r = ret t' /\
    (small_count t', medium_count t', large_count t')
      = bump (size_of (detected_classes r)) t /\
    map m_color (map_data t')
      = (map m_color (map_data t) ++ [color_of (size_of (detected_classes r))])%list.
Proof.
  unfold tally_row.
  destruct (bump (size_of (detected_classes r)) t) as [[s m] l] eqn:Hbump.
  destruct (parse_location_total U (Some (Py.or_else (location r) ""))) as [c ->].
  eexists. split; [reflexivity |]. cbn [small_count medium_count large_count map_data].
  split; [reflexivity |]. rewrite map_app. reflexivity.
Qed.

Lemma size_of_mentions (r : Row) :
  size_of (detected_classes r)
  = if mentions "small" r then Small
    else if mentions "medium" r then Medium
    else if mentions "large" r then Large
    else Unmatched.
Proof. reflexivity. Qed.

Lemma tally_rows_counts (U : Py.Unicode) (rows : list Row) (t : Tally) :
  exists t',
    tally_rows U t rows = ret t' /\
    small_count t' = (small_count t + count counts_small rows)%nat /\
    medium_count t' = (medium_count t + count counts_medium rows)%nat /\
    large_count t' = (large_count t + count counts_large rows)%nat /\
    map m_color (map_data t') = (map m_color (map_data t) ++ map display_color rows)%list.
Proof.
  revert t. induction rows as [|r rows IH]; intros t.
  - exists t. unfold count. simpl. rewrite app_nil_r. repeat split; lia.
  - destruct (tally_row_step U t r) as (t1 & Hstep & Hbump & Hcol).
    destruct (IH t1) as (t' & Hrows & Hs & Hm & Hl & Hcols).
    exists t'. simpl. rewrite Hstep. simpl. split; [exact Hrows |].
    rewrite Hs, Hm, Hl, Hcols, Hcol, <- app_assoc.
    rewrite size_of_mentions in Hbump |- *.
    unfold count, counts_small, counts_medium, counts_large, display_color. simpl.
    destruct (mentions "small" r), (mentions "medium" r), (mentions "large" r);
      simpl in Hbump; injection Hbump as -> -> ->; simpl; repeat split; lia.
Qed.

(** C3.  Each record is classified by the case-insensitive substring
    tests for "small", "medium" and "large", in this order, the first
    that holds deciding: it adds one to that count and to no other and
    gets green, amber or red; a record that passes none of the three
    adds to no count and gets gray.  The three counts of the page are
    the numbers of records so classified. *)
Theorem analytics_size_counts (U : Py.Unicode) (w : World) :
  (forall kw r,
     mentions kw r = true <-> ci_substring kw (Py.or_else (detected_classes r) "")) /\
  (forall t r, exists t',
     tally_row U t r = ret t' /\
     (small_count t', medium_count t', large_count t')
       = (if mentions "small" r
          then (S (small_count t), medium_count t, large_count t)
          else if mentions "medium" r
          then (small_count t, S (medium_count t), large_count t)
          else if mentions "large" r
          then (small_count t, medium_count t, S (large_count t))
          else (small_count t, medium_count t, large_count t)) /\
     map m_color (map_data t')
       = (map m_color (map_data t)
          ++ [if mentions "small" r then "#28a745"
              else if mentions "medium" r then "#ffc107"
              else if mentions "large" r then "#dc3545"
              else "#6c757d"])%list) /\
  size_of (Some "small-crack") = Small /\
  size_of (Some "Large and SMALL") = Small /\
  size_of (Some "plastic") = Unmatched /\
  exists page,
    analytics U w = ret page /\
    small_count (page_tally page) = count counts_small (list_all (db w)) /\
    medium_count (page_tally page) = count counts_medium (list_all (db w)) /\
    large_count (page_tally page) = count counts_large (list_all (db w)) /\
    chart_data page = [count counts_small (list_all (db w));
                       count counts_medium (list_all (db w));
                       count counts_large (list_all (db w))] /\
    map m_color (map_data (page_tally page)) = map display_color (list_all (db w)).
Proof.
  split; [intros kw r; apply contains_lower_iff |].
  split.
  { intros t r. destruct (tally_row_step U t r) as (t' & Hstep & Hbump & Hcol).
    exists t'. split; [exact Hstep |]. rewrite Hbump, Hcol, size_of_mentions.
    by destruct (mentions "small" r), (mentions "medium" r), (mentions "large" r). }
  do 3 (split; [reflexivity |]).
  destruct (tally_rows_counts U (list_all (db w)) tally0)
    as (t & Hrows & Hs & Hm & Hl & Hc).
  unfold analytics. rewrite Hrows. eexists. split; [reflexivity |].
  cbn [page_tally chart_data]. rewrite Hs, Hm, Hl, Hc. done.
Qed.


(** ** The stored [detected_classes] *)

Lemma join_eq_nil (sep : string) (l : list string) :
  sep <> "" -> Py.join sep l = "" -> l = [] \/ l = [""].
Proof.
  intros Hsep Hjoin. destruct l as [|p [|q l]]; [by left | right; by simplify_eq/= |].
  exfalso. cbn [Py.join] in Hjoin.
  apply append_eq_nil in Hjoin as [_ Hjoin]. apply append_eq_nil in Hjoin as [? _]. done.
Qed.

Lemma sorted_Permutation (s : gset string) : Py.sorted s ≡ₚ elements s.
Proof. apply merge_sort_Permutation. Qed.

Lemma sorted_StronglySorted (s : gset string) : StronglySorted String.le (Py.sorted s).
Proof. apply (StronglySorted_merge_sort String.le). Qed.

Lemma sorted_NoDup (s : gset string) : NoDup (Py.sorted s).
Proof. rewrite sorted_Permutation. apply NoDup_elements. Qed.

Lemma elem_of_sorted (s : gset string) (x : string) : x ∈ Py.sorted s <-> x ∈ s.
Proof. rewrite sorted_Permutation. apply elem_of_elements. Qed.

(** The stored text is empty exactly when the only label is empty. *)
Lemma detected_str_empty_iff (s : gset string) :
  detected_str s = "" <-> s = {[ "" ]}.
Proof.
  split.
  - unfold detected_str. case_decide as Hs; [discriminate |]. intros Hjoin.
    apply join_eq_nil in Hjoin as [Hnil | Hone]; [| | discriminate].
    + exfalso. apply Hs. apply leibniz_equiv, elements_empty_inv.
      apply Permutation_nil_r. by rewrite <- sorted_Permutation, Hnil.
    + apply set_eq. intros x.
      rewrite <- elem_of_sorted, Hone, list_elem_of_singleton, elem_of_singleton. done.
  - intros ->. reflexivity.
Qed.

Lemma upload_redirect_inv E tf tr now req w url w' :
  upload E tf tr now req w = (Redirect url, w') ->
  exists f path fs s out,
    file req = Some f /\
    save_uploaded_image E tf f (files w) = (ret path, fs) /\
    run_model E fs path (stdout w) = ret (s, out) /\
    w' = {| files := fs; db := (db w ++ [upload_row tr now req path s])%list;
            stdout := out |}.
Proof.
  unfold upload. destruct (file req) as [f|]; [| discriminate].
  destruct (no_file (Some f)); [discriminate |].
  destruct (save_uploaded_image E tf f (files w)) as [[e|path] fs] eqn:Hsave;
    [by destruct e |].
  destruct (run_model E fs path (stdout w)) as [e|[s out]] eqn:Hrun; [discriminate |].
  fold (upload_row tr now req path s). unfold insert.
  destruct (existsb _ (db w)); [discriminate |]. intros [= <- <-].
  exists f, path, fs, s, out. done.
Qed.

(** The claim C1 as it is worded fails when the classifier's only label
    is the empty string: the row is inserted with an empty
    [detected_classes]. *)
Lemma blank_label_is_stored_empty :
  let answer :=
    upload (Demo.externals (Some (Demo.yolo Demo.blank_labels)))
      Demo.token_a Demo.token_b Demo.now (Demo.request "bin.jpg" Demo.jpeg)
      Demo.world0 in
  fst answer = Redirect analytics_url /\
  map detected_classes (db (snd answer)) = [Some ""].
Proof. vm_compute. split; reflexivity. Qed.

(** C1, amended.  The row an upload inserts has a [detected_classes]
    that is never null: "None" when the detected set is empty, the
    sentinel "model_missing" when no classifier is configured, and
    otherwise the distinct labels of the classifier's boxes, sorted in
    ascending string order and joined with ", ".  It is the empty
    string only when the single distinct label is the empty string. *)
Theorem upload_detected_classes
    (E : Externals) (token_file token_row : N) (now : datetime.t)
    (req : Request) (w w' : World) :
  upload E token_file token_row now req w = (Redirect analytics_url, w') ->
  exists row s path,
    db w' = (db w ++ [row])%list /\
    run_model E (files w') path (stdout w) = ret (s, stdout w') /\
    detected_classes row = Some (detected_str s) /\
    (s = ∅ -> detected_str s = "None") /\
    (s <> ∅ ->
       detected_str s = Py.join ", " (Py.sorted s) /\
       StronglySorted String.le (Py.sorted s) /\ NoDup (Py.sorted s) /\
       forall x, x ∈ Py.sorted s <-> x ∈ s) /\
    (forall m results,
       model E = Some m -> predict m (files w') path = ret results ->
       forall x, x ∈ s <-> is_label (names m) results x) /\
    (model E = None -> detected_str s = "model_missing") /\
    (detected_str s = "" <-> s = {[ "" ]}).
Proof.
  intros Hup.
  apply upload_redirect_inv in Hup as (f & path & fs & s & out & _ & _ & Hrun & ->).
  exists (upload_row token_row now req path s), s, path. cbn [files db stdout].
  split; [reflexivity |]. split; [exact Hrun |]. split; [reflexivity |].
  split; [by intros -> |]. split.
  { intros Hne. split; [unfold detected_str; by rewrite decide_False |].
    split; [apply sorted_StronglySorted |]. split; [apply sorted_NoDup |].
    intros x. apply elem_of_sorted. }
  split; [| split; [| apply detected_str_empty_iff]].
  - intros m results Hm Hres.
    apply (run_model_read E fs path (stdout w) m results s out Hm Hres Hrun).
  - intros Hnone. unfold run_model in Hrun. rewrite Hnone in Hrun.
    by injection Hrun as <- _.
Qed.

Lemma upload_detected_classes_witness :
  exists row,
    db (snd (upload (Demo.externals (Some (Demo.yolo Demo.labels)))
               Demo.token_a Demo.token_b Demo.now
               (Demo.request "bin.jpg" Demo.jpeg) Demo.world0)) = [row] /\
    detected_classes row = Some "large-garbage, small-garbage".
Proof.
  destruct (upload_detected_classes (Demo.externals (Some (Demo.yolo Demo.labels)))
              Demo.token_a Demo.token_b Demo.now (Demo.request "bin.jpg" Demo.jpeg)
              Demo.world0
              (snd (upload (Demo.externals (Some (Demo.yolo Demo.labels)))
                      Demo.token_a Demo.token_b Demo.now
                      (Demo.request "bin.jpg" Demo.jpeg) Demo.world0)))
    as (row & s & path & Hdb & _); [vm_compute; reflexivity |].
  exists row. split; [exact Hdb |].
  vm_compute in Hdb. injection Hdb as <-. reflexivity.
Defined.


(** ** The text form of a UUID *)

Lemma lowhex_code (d : N) :
  (d < 16)%N ->
  N_of_ascii (UUID.lowhex d) = if (d <? 10)%N then (48 + d)%N else (87 + d)%N.
Proof.
  intros Hd. unfold UUID.lowhex.
  destruct (d <? 10)%N; apply N_ascii_embedding; lia.
Qed.

Lemma lowhex_inj (d1 d2 : N) :
  (d1 < 16)%N -> (d2 < 16)%N -> UUID.lowhex d1 = UUID.lowhex d2 -> d1 = d2.
Proof.
  intros H1 H2 Heq. apply (f_equal N_of_ascii) in Heq.
  rewrite !lowhex_code in Heq by done.
  destruct (N.ltb_spec d1 10), (N.ltb_spec d2 10); lia.
Qed.

Lemma lowhex_not_slash (d : N) : (d < 16)%N -> UUID.lowhex d <> "/"%char.
Proof.
  intros Hd Heq. apply (f_equal N_of_ascii) in Heq.
  rewrite lowhex_code in Heq by done. simpl in Heq.
  destruct (N.ltb_spec d 10); lia.
Qed.

Lemma hex_fixed_length (w : nat) (n : N) : String.length (UUID.hex_fixed w n) = w.
Proof.
  revert n. induction w as [|w IH]; intros n; simpl; [done |].
  rewrite length_append, IH. simpl. lia.
Qed.

Lemma hex_fixed_inj (w : nat) (n1 n2 : N) :
  (n1 < 16 ^ N.of_nat w)%N -> (n2 < 16 ^ N.of_nat w)%N ->
  UUID.hex_fixed w n1 = UUID.hex_fixed w n2 -> n1 = n2.
Proof.
  revert n1 n2. induction w as [|w IH]; intros n1 n2 H1 H2 Heq.
  - simpl in H1, H2. lia.
  - rewrite Nat2N.inj_succ, N.pow_succ_r' in H1, H2. simpl in Heq.
    apply append_inj_length in Heq as [Hhi Hlo]; [| by rewrite !hex_fixed_length].
    injection Hlo as Hlo.
    apply lowhex_inj in Hlo; [| by apply N.mod_lt | by apply N.mod_lt].
    apply IH in Hhi; [| by apply N.Div0.div_lt_upper_bound ..].
    rewrite (N.div_mod n1 16), (N.div_mod n2 16) by done. congruence.
Qed.

(** The first character of the digits is a hex digit. *)
Lemma hex_fixed_head (w : nat) (n : N) :
  exists d rest, (d < 16)%N /\ UUID.hex_fixed (S w) n = String (UUID.lowhex d) rest.
Proof.
  revert n. induction w as [|w IH]; intros n.
  - exists (n mod 16)%N, "". split; [by apply N.mod_lt | reflexivity].
  - destruct (IH (n / 16)%N) as (d & rest & Hd & Heq).
    exists d, (rest +:+ String (UUID.lowhex (n mod 16)) ""). split; [done |].
    change (UUID.hex_fixed (S (S w)) n)
      with (UUID.hex_fixed (S w) (n / 16) +:+ String (UUID.lowhex (n mod 16)) "").
    by rewrite Heq.
Qed.

Ltac peel h Hlen :=
  do 32 (destruct h as [|? h]; [discriminate Hlen |];
         simpl in Hlen; apply Nat.succ_inj in Hlen);
  destruct h; [clear Hlen | discriminate Hlen].

Lemma dashed_inj (h1 h2 : string) :
  String.length h1 = 32%nat -> String.length h2 = 32%nat ->
  UUID.dashed h1 = UUID.dashed h2 -> h1 = h2.
Proof.
  intros H1 H2 Heq. peel h1 H1. peel h2 H2.
  cbv in Heq. by simplify_eq.
Qed.

Lemma dashed_length (h : string) :
  String.length h = 32%nat -> String.length (UUID.dashed h) = 36%nat.
Proof. intros H. peel h H. reflexivity. Qed.

Lemma dashed_head (c : ascii) (rest : string) :
  String.length (String c rest) = 32%nat ->
  exists rest', UUID.dashed (String c rest) = String c rest'.
Proof.
  intros H. injection H as H.
  do 31 (destruct rest as [|? rest]; [discriminate H |];
         simpl in H; apply Nat.succ_inj in H).
  eexists. reflexivity.
Qed.

Lemma uuid_str_inj (u1 u2 : N) :
  UUID.in_range u1 -> UUID.in_range u2 -> UUID.str u1 = UUID.str u2 -> u1 = u2.
Proof.
  intros H1 H2 Heq. apply (hex_fixed_inj 32); [exact H1 | exact H2 |].
  apply dashed_inj; [apply hex_fixed_length .. | exact Heq].
Qed.

Lemma uuid_str_length (u : N) : String.length (UUID.str u) = 36%nat.
Proof. apply dashed_length, hex_fixed_length. Qed.

Lemma uuid_str_head (u : N) :
  exists c rest, UUID.str u = String c rest /\ c <> "/"%char.
Proof.
  destruct (hex_fixed_head 31 u) as (d & rest & Hd & Heq).
  destruct (dashed_head (UUID.lowhex d) rest) as [rest' Hrest].
  - rewrite <- Heq. apply hex_fixed_length.
  - exists (UUID.lowhex d), rest'. unfold UUID.str. rewrite Heq.
    split; [exact Hrest | by apply lowhex_not_slash].
Qed.

(** ** Paths *)

Lemma all_chars_app (P : ascii -> bool) (a b : string) :
  all_chars P (a +:+ b) = all_chars P a && all_chars P b.
Proof. induction a as [|c a IH]; simpl; [done |]. by rewrite IH, andb_assoc. Qed.

Lemma all_chars_substring (P : ascii -> bool) (s : string) (n m : nat) :
  all_chars P s = true -> all_chars P (substring n m s) = true.
Proof.
  revert n m. induction s as [|c s IH]; intros n m Hs.
  - by destruct n, m.
  - simpl in Hs. apply andb_prop in Hs as [Hc Hs].
    destruct n as [|n]; [destruct m as [|m] |]; simpl; [done | | by apply IH].
    by rewrite Hc, IH.
Qed.

Lemma substring_all (s : string) : substring 0 (String.length s) s = s.
Proof. induction s as [|c s IH]; simpl; [done | by rewrite IH]. Qed.



Lemma rfind_from_absent (c : ascii) (s : string) (i last : Z) :
  all_chars (not_char c) s = true -> os_path.rfind_from c i s last = last.
Proof.
  revert i. induction s as [|a s IH]; intros i Hs; simpl; [done |].
  simpl in Hs. apply andb_prop in Hs as [Ha Hs]. unfold not_char in Ha.
  apply negb_true_iff in Ha. rewrite Ha. by apply IH.
Qed.






(** ** Stored names *)

Lemma stored_name_inj (t1 t2 : N) (b1 b2 e1 e2 : string) :
  UUID.in_range t1 -> UUID.in_range t2 ->
  stored_name t1 b1 e1 = stored_name t2 b2 e2 -> t1 = t2.
Proof.
  intros H1 H2 Heq. unfold stored_name in Heq.
  apply append_inj_length in Heq as [Heq _]; [| by rewrite !uuid_str_length].
  by apply uuid_str_inj.
Qed.

Lemma join_upload_folder (token : N) (base ext : string) :
  os_path.join UPLOAD_FOLDER (stored_name token base ext)
  = "uploads/" +:+ stored_name token base ext.
Proof.
  unfold stored_name. destruct (uuid_str_head token) as (c & rest & -> & Hc).
  unfold os_path.join. cbn [String.append Py.startswith].
  destruct (Ascii.eqb_spec "/" c) as [<- | _]; [done | reflexivity].
Qed.





(** ** The listing *)

#[local] Instance text_le_trans : Transitive text_le.
Proof.
  intros [x|] [y|] [z|]; simpl; try done. apply (transitivity (R := String.le)).
Qed.

#[local] Instance text_le_total : Total text_le.
Proof.
  intros [x|] [y|]; simpl; auto. apply (total String.le).
Qed.

#[local] Instance newer_first_trans : Transitive newer_first.
Proof. intros a b c Hab Hbc. unfold newer_first in *. by etrans. Qed.

#[local] Instance newer_first_total : Total newer_first.
Proof. intros a b. unfold newer_first. apply (total text_le). Qed.

Lemma StronglySorted_lookup {A} (R : relation A) (l : list A) (i j : nat) (a b : A) :
  StronglySorted R l -> (i < j)%nat -> l !! i = Some a -> l !! j = Some b -> R a b.
Proof.
  intros Hsorted. revert i j. induction Hsorted as [|x l Hl IH Hall]; intros i j Hij Hi Hj.
  - by rewrite lookup_nil in Hi.
  - destruct j as [|j]; [lia |]. destruct i as [|i].
    + injection Hi as <-. rewrite List.Forall_forall in Hall.
      apply Hall. apply list_elem_of_In. by eapply list_elem_of_lookup_2.
    + apply (IH i j); [lia | done | done].
Qed.

(** ** Timestamps compare as the times they print *)

Lemma compare_cons_same (c : ascii) (s s' : string) :
  String.compare (String c s) (String c s') = String.compare s s'.
Proof. simpl. unfold Ascii.compare. by rewrite N.compare_refl. Qed.

Lemma compare_app (a a' b b' : string) :
  String.length a = String.length a' ->
  String.compare (a +:+ b) (a' +:+ b')
  = match String.compare a a' with
    | Eq => String.compare b b'
    | c => c
    end.
Proof.
  revert a'. induction a as [|x a IH]; intros [|y a'] Hlen; try discriminate; [done |].
  injection Hlen as Hlen. simpl. destruct (Ascii.compare x y); auto.
Qed.

Lemma compare_digits (r1 r2 : N) :
  (r1 < 10)%N -> (r2 < 10)%N ->
  String.compare (String (datetime.digit r1) "") (String (datetime.digit r2) "")
  = N.compare r1 r2.
Proof.
  intros H1 H2. simpl. unfold Ascii.compare, datetime.digit.
  rewrite !N_ascii_embedding by lia.
  destruct (N.compare_spec (48 + r1) (48 + r2)), (N.compare_spec r1 r2);
    try reflexivity; lia.
Qed.

Lemma compare_div_mod (n m : N) :
  N.compare n m
  = match N.compare (n / 10) (m / 10) with
    | Eq => N.compare (n mod 10) (m mod 10)
    | c => c
    end.
Proof.
  assert (10 <> 0)%N as Hten by lia.
  pose proof (N.div_mod n 10 Hten) as Hn. pose proof (N.div_mod m 10 Hten) as Hm.
  pose proof (N.mod_lt n 10 Hten) as Hrn. pose proof (N.mod_lt m 10 Hten) as Hrm.
  revert Hn Hm Hrn Hrm.
  generalize (n / 10)%N (n mod 10)%N (m / 10)%N (m mod 10)%N.
  intros qn rn qm rm -> -> Hrn Hrm.
  destruct (N.compare_spec qn qm); destruct (N.compare_spec rn rm);
    destruct (N.compare_spec (10 * qn + rn) (10 * qm + rm));
    try reflexivity; lia.
Qed.

Lemma dec_fixed_length (w : nat) (n : N) : String.length (datetime.dec_fixed w n) = w.
Proof.
  revert n. induction w as [|w IH]; intros n; simpl; [done |].
  rewrite length_append, IH. simpl. lia.
Qed.

(** On a fixed width, the order of the numerals is the order of the
    numbers. *)
Lemma dec_fixed_compare (w : nat) (n m : N) :
  (n < 10 ^ N.of_nat w)%N -> (m < 10 ^ N.of_nat w)%N ->
  String.compare (datetime.dec_fixed w n) (datetime.dec_fixed w m) = N.compare n m.
Proof.
  revert n m. induction w as [|w IH]; intros n m Hn Hm.
  - simpl in Hn, Hm. assert (n = 0%N) as -> by lia. assert (m = 0%N) as -> by lia. done.
  - rewrite Nat2N.inj_succ, N.pow_succ_r' in Hn, Hm. simpl.
    rewrite compare_app by (by rewrite !dec_fixed_length).
    rewrite IH by (by apply N.Div0.div_lt_upper_bound).
    rewrite compare_digits by (by apply N.mod_lt).
    symmetry. apply compare_div_mod.
Qed.

Lemma strftime_compare (a b : datetime.t) :
  datetime.wf a -> datetime.wf b ->
  String.compare (datetime.strftime a) (datetime.strftime b) = datetime.compare a b.
Proof.
  intros (Hy & Hmo & Hd & Hh & Hmi & Hs) (Hy' & Hmo' & Hd' & Hh' & Hmi' & Hs').
  unfold datetime.strftime, datetime.compare, datetime.to_tuple.
  cbn [datetime.lex_compare].
  repeat (rewrite compare_app by (by rewrite !dec_fixed_length);
          rewrite dec_fixed_compare by (simpl; lia);
          cbn [String.append]; rewrite ?compare_cons_same).
  rewrite dec_fixed_compare by (simpl; lia).
  by repeat (destruct (N.compare _ _); try reflexivity).
Qed.

Lemma strftime_le (a b : datetime.t) :
  datetime.wf a -> datetime.wf b ->
  String.le (datetime.strftime a) (datetime.strftime b) <-> datetime.le a b.
Proof.
  intros Ha Hb. unfold String.le, String.leb, datetime.le.
  rewrite strftime_compare by done.
  destruct (datetime.compare a b); simpl; split; try done.
Qed.

(** C7.  The listing holds every row of the table, each once, ordered
    by timestamp descending; it is the listing the analytics page
    shows.  On timestamps printed as YYYY-MM-DD HH:MM:SS the order of
    the texts is the order of the times, so that a row listed before
    another is not older than it. *)
Theorem list_all_newest_first (U : Py.Unicode) (w : World) :
  list_all (db w) ≡ₚ db w /\
  StronglySorted newer_first (list_all (db w)) /\
  (exists page, analytics U w = ret page /\ page_rows page = list_all (db w)) /\
  (forall a b,
     datetime.wf a -> datetime.wf b ->
     (String.le (datetime.strftime a) (datetime.strftime b) <-> datetime.le a b)) /\
  (forall i j r1 r2 d1 d2,
     (i < j)%nat ->
     list_all (db w) !! i = Some r1 -> list_all (db w) !! j = Some r2 ->
     timestamp r1 = Some (datetime.strftime d1) -> datetime.wf d1 ->
     timestamp r2 = Some (datetime.strftime d2) -> datetime.wf d2 ->
     datetime.le d2 d1).
Proof.
  assert (StronglySorted newer_first (list_all (db w))) as Hsorted
    by apply (StronglySorted_merge_sort newer_first).
  split; [apply merge_sort_Permutation |]. split; [exact Hsorted |]. split.
  { destruct (tally_rows_counts U (list_all (db w)) tally0) as (t & Hrows & _).
    unfold analytics. rewrite Hrows. eexists. split; reflexivity. }
  split; [exact strftime_le |].
  intros i j r1 r2 d1 d2 Hij Hi Hj Ht1 Hd1 Ht2 Hd2.
  pose proof (StronglySorted_lookup newer_first _ i j r1 r2 Hsorted Hij Hi Hj) as Hle.
  unfold newer_first in Hle. rewrite Ht1, Ht2 in Hle. simpl in Hle.
  by apply strftime_le.
Qed.

Lemma demo_wf_later : datetime.wf Demo.later.
Proof. unfold datetime.wf. simpl. lia. Qed.

Lemma demo_wf_now : datetime.wf Demo.now.
Proof. unfold datetime.wf. simpl. lia. Qed.

Lemma list_all_newest_first_witness :
  map id (list_all (db Demo.world1)) = ["b"; "a"; "d"; "c"] /\
  datetime.le Demo.now Demo.later.
Proof.
  split; [vm_compute; reflexivity |].
  destruct (list_all_newest_first Demo.unicode Demo.world1) as (_ & _ & _ & _ & Horder).
  apply (Horder 0%nat 1%nat (Demo.row "b" "Medium bag, small" Demo.later)
           (Demo.row "a" "small-crack" Demo.now) Demo.later Demo.now);
    [lia | vm_compute; reflexivity | vm_compute; reflexivity | reflexivity
    | apply demo_wf_later | reflexivity | apply demo_wf_now].
Defined.

Lemma analytics_size_counts_witness :
  exists page,
    analytics Demo.unicode Demo.world1 = ret page /\ chart_data page = [2; 0; 1]%nat.
Proof.
  destruct (analytics_size_counts Demo.unicode Demo.world1)
    as (_ & _ & _ & _ & _ & page & Hpage & _ & _ & _ & Hchart & _).
  exists page. split; [exact Hpage |]. rewrite Hchart. vm_compute. reflexivity.
Defined.


(** ** Every outcome of an upload *)

Lemma insert_cases (token : N) (r : Row) (table : list Row) :
  id r = UUID.str token ->
  (fresh token table /\ insert r table = ret (table ++ [r])%list) \/
  (~ fresh token table /\ exists e, insert r table = raise e).
Proof.
  intros Hid. unfold insert, fresh.
  destruct (existsb _ table) eqn:Hex.
  - right. split; [| eauto]. intros Hfresh.
    apply existsb_exists in Hex as (r' & Hin & Heq). apply String.eqb_eq in Heq.
    rewrite List.Forall_forall in Hfresh. apply (Hfresh r' Hin). congruence.
  - left. split; [| done]. apply List.Forall_forall. intros r' Hin Heq.
    assert (existsb (fun r'0 => (id r'0 =? id r)%string) table = true) as Habs; [| congruence].
    apply existsb_exists. exists r'. split; [done |]. apply String.eqb_eq. congruence.
Qed.

(** The five ways an upload ends: refused for want of a file, refused
    by the validator, ended by an exception of Pillow, broken by the
    primary key, or recorded. *)
Lemma upload_outcome E tf tr now req w :
  (upload E tf tr now req w = (Body "No file uploaded." 400%N, w) /\
   no_file (file req) = true) \/
  (upload E tf tr now req w = (Body "Uploaded file is not a valid image" 400%N, w) /\
   exists f, file req = Some f /\ no_file (Some f) = false /\ ~ validates E (read f)) \/
  (exists f img e fs,
     file req = Some f /\ no_file (Some f) = false /\
     Image_open E (read f) = ret img /\ Image_verify E img = ret tt /\
     ~ writes E img /\
     save_uploaded_image E tf f (files w) = (raise e, fs) /\
     (fs = files w \/
      exists sf, fs = <[ stored_path E tf f img := sf ]> (files w) /\
                 complete sf = false) /\
     upload E tf tr now req w
     = (answer_to e, {| files := fs; db := db w; stdout := stdout w |})) \/
  (exists f img s out,
     file req = Some f /\ no_file (Some f) = false /\
     Image_open E (read f) = ret img /\ Image_verify E img = ret tt /\
     writes E img /\
     let path := stored_path E tf f img in
     let fs := <[ path := written_file img ]> (files w) in
     run_model E fs path (stdout w) = ret (s, out) /\
     ((fresh tr (db w) /\
       upload E tf tr now req w =
         (Redirect analytics_url,
          {| files := fs; db := (db w ++ [upload_row tr now req path s])%list;
             stdout := out |})) \/
      (~ fresh tr (db w) /\ exists e,
       upload E tf tr now req w =
         (Unhandled e, {| files := fs; db := db w; stdout := out |})))).
Proof.
  unfold upload. destruct (file req) as [f|] eqn:Hfile; [| by left].
  destruct (no_file (Some f)) eqn:Hno; [by left |]. right.
  destruct (save_uploaded_image_cases E tf f (files w))
    as [[Hinv Hsave] | (img & Hopen & Hver & [[Hw Hsave] | (Hw & e & fs & Hsave & Hfs)])];
    rewrite Hsave.
  - left. unfold raise, invalid_image. rewrite world_eta. eauto.
  - right. right. exists f, img.
    destruct (run_model_total E (<[stored_path E tf f img := written_file img]> (files w))
                (stored_path E tf f img) (stdout w)) as (s & out & Hrun).
    exists s, out. do 5 (split; [done |]). cbv zeta. split; [exact Hrun |].
    unfold ret in *. rewrite Hrun.
    fold (upload_row tr now req (stored_path E tf f img) s).
    destruct (insert_cases tr (upload_row tr now req (stored_path E tf f img) s) (db w))
      as [[Hfresh Hins] | [Hdup [e Hins]]]; [reflexivity | |];
      unfold ret, raise in Hins; rewrite Hins; [left | right]; eauto.
  - right. left. exists f, img, e, fs. do 7 (split; [done |]).
    unfold raise. by destruct e.
Qed.

Lemma run_model_prints E fs path out s out' :
  run_model E fs path out = ret (s, out') -> out `prefix_of` out'.
Proof.
  unfold run_model. destruct (model E) as [m|]; [| by intros [= _ <-]].
  destruct (predict m fs path) as [e|results].
  - intros [= _ <-]. by apply prefix_app_r.
  - destruct (read_results (names m) ∅ results) as [s1 [e|]]; intros [= _ <-];
      [by apply prefix_app_r | done].
Qed.

(** X1.  Whatever the request and however it ends, an upload only adds:
    the rows of the table stay, in their order, and at most one row is
    appended; every stored file stays under its name, and at most one
    name is written; what was printed stays. *)
Theorem upload_only_adds
    (E : Externals) (token_file token_row : N) (now : datetime.t)
    (req : Request) (w : World) :
  let w' := snd (upload E token_file token_row now req w) in
  db w `prefix_of` db w' /\
  (length (db w') <= S (length (db w)))%nat /\
  dom (files w) ⊆ dom (files w') /\
  (exists path, forall k, k <> path -> files w' !! k = files w !! k) /\
  stdout w `prefix_of` stdout w'.
Proof.
  destruct (upload_outcome E token_file token_row now req w)
    as [[-> _] | [[-> _] | [(f & img & e & fs & _ & _ & _ & _ & _ & _ & Hfs & ->)
        | (f & img & s & out & _ & _ & _ & _ & _ & Hrest)]]];
    cbn [snd]; try (repeat split; [done | lia | done | by exists "" | done]).
  - cbn [files db stdout]. split; [done |]. split; [lia |].
    destruct Hfs as [-> | (sf & -> & _)].
    + split; [done |]. split; [by exists "" | done].
    + split; [apply dom_insert_subseteq |]. split; [| done].
      exists (stored_path E token_file f img). intros k Hk. by rewrite lookup_insert_ne.
  - cbv zeta in Hrest. destruct Hrest as [Hrun Hcases].
    apply run_model_prints in Hrun.
    destruct Hcases as [[_ ->] | [_ [e ->]]]; cbn [snd files db stdout].
    + split; [by apply prefix_app_r |]. split; [rewrite length_app; simpl; lia |].
      split; [apply dom_insert_subseteq |]. split; [| done].
      exists (stored_path E token_file f img). intros k Hk. by rewrite lookup_insert_ne.
    + split; [done |]. split; [lia |]. split; [apply dom_insert_subseteq |].
      split; [| done].
      exists (stored_path E token_file f img). intros k Hk. by rewrite lookup_insert_ne.
Qed.

(** X2.  The primary key stays a key: when no two rows of the table
    share an id, no two rows share one after an upload. *)
Theorem upload_keeps_ids_unique
    (E : Externals) (token_file token_row : N) (now : datetime.t)
    (req : Request) (w : World) :
  NoDup (map id (db w)) ->
  NoDup (map id (db (snd (upload E token_file token_row now req w)))).
Proof.
  intros Hnodup.
  destruct (upload_outcome E token_file token_row now req w)
    as [[-> _] | [[-> _] | [(f & img & e & fs & _ & _ & _ & _ & _ & _ & _ & ->)
        | (f & img & s & out & _ & _ & _ & _ & _ & Hrest)]]];
    cbn [snd]; try done.
  cbv zeta in Hrest. destruct Hrest as [_ [[Hfresh ->] | [_ [e ->]]]];
    cbn [snd db]; [| done].
  rewrite map_app. apply NoDup_app. split; [done |]. split; [| apply NoDup_singleton].
  intros x Hx Hin. apply list_elem_of_singleton in Hin. cbn [id upload_row] in Hin.
  apply list_elem_of_fmap in Hx as (r & -> & Hr).
  unfold fresh in Hfresh. rewrite List.Forall_forall in Hfresh.
  apply (Hfresh r); [by apply list_elem_of_In | done].
Qed.

Lemma demo_world1_ids : NoDup (map id (db Demo.world1)).
Proof.
  cbn. repeat (constructor; [rewrite ?elem_of_cons, elem_of_nil; intuition discriminate |]).
  constructor.
Qed.

Lemma upload_keeps_ids_unique_witness :
  NoDup (map id (db (snd (upload (Demo.externals None) Demo.token_a Demo.token_b
                            Demo.now (Demo.request "bin.png" Demo.png) Demo.world1)))).
Proof.
  apply (upload_keeps_ids_unique (Demo.externals None) Demo.token_a Demo.token_b
           Demo.now (Demo.request "bin.png" Demo.png) Demo.world1).
  apply demo_world1_ids.
Defined.

(** X3.  An upload that is answered with a body is answered with status
    400, and it has written no row, no output and no complete file.
    The message is "No file uploaded." when the file is missing or has
    no name, and otherwise the text of the [ValueError] that
    [save_uploaded_image] raised: the validator's message when the
    verify pass refuses the bytes, and the message of Pillow when its
    [convert] or [save] raises a [ValueError]. *)
Theorem upload_refusal_writes_nothing
    (E : Externals) (token_file token_row : N) (now : datetime.t)
    (req : Request) (w w' : World) (m : string) (status : N) :
  upload E token_file token_row now req w = (Body m status, w') ->
  status = 400%N /\ db w' = db w /\ stdout w' = stdout w /\
  (forall k sf, files w' !! k = Some sf ->
                files w !! k = Some sf \/ complete sf = false) /\
  ((no_file (file req) = true /\ m = "No file uploaded." /\ w' = w) \/
   exists f,
     file req = Some f /\ no_file (Some f) = false /\
     save_uploaded_image E token_file f (files w) = (raise (ValueError m), files w') /\
     (~ validates E (read f) ->
        m = "Uploaded file is not a valid image" /\ w' = w) /\
     (validates E (read f) ->
        exists img, Image_open E (read f) = ret img /\ ~ writes E img)).
Proof.
  intros Hup.
  destruct (upload_outcome E token_file token_row now req w)
    as [[Heq Hno] | [[Heq (f & Hf & Hno & Hinv)]
       | [(f & img & e & fs & Hf & Hno & Hopen & Hver & Hw & Hsave & Hfs & Heq)
       | (f & img & s & out & _ & _ & _ & _ & _ & Hrest)]]].
  - rewrite Heq in Hup. injection Hup as <- <- <-.
    split; [done |]. split; [done |]. split; [done |]. split; [by left |]. by left.
  - rewrite Heq in Hup. injection Hup as <- <- <-.
    split; [done |]. split; [done |]. split; [done |]. split; [by left |].
    right. exists f. split; [done |]. split; [done |].
    split; [by apply save_uploaded_image_invalid |]. split; [done |].
    intros Hval. by destruct Hinv.
  - rewrite Heq in Hup. destruct e as [m'|cls m']; [| discriminate].
    cbn [answer_to] in Hup. injection Hup as <- <- <-. cbn [files db stdout].
    split; [done |]. split; [done |]. split; [done |]. split.
    { intros k sf Hk. destruct Hfs as [-> | (sf' & -> & Hpartial)]; [by left |].
      destruct (decide (k = stored_path E token_file f img)) as [-> | Hne].
      - rewrite lookup_insert_eq in Hk. injection Hk as <-. by right.
      - rewrite lookup_insert_ne in Hk by done. by left. }
    right. exists f. split; [done |]. split; [done |]. split; [exact Hsave |]. split.
    + intros Hinv. exfalso. apply Hinv. by exists img.
    + intros _. by exists img.
  - cbv zeta in Hrest. destruct Hrest as [_ [[_ Heq] | [_ [e Heq]]]];
      rewrite Heq in Hup; discriminate.
Qed.

Lemma upload_refusal_writes_nothing_witness :
  snd (upload (Demo.externals None) Demo.token_a Demo.token_b Demo.now
         (Demo.request "notes.txt" Demo.text) Demo.world1) = Demo.world1.
Proof.
  destruct (upload_refusal_writes_nothing (Demo.externals None) Demo.token_a Demo.token_b
              Demo.now (Demo.request "notes.txt" Demo.text) Demo.world1
              (snd (upload (Demo.externals None) Demo.token_a Demo.token_b Demo.now
                      (Demo.request "notes.txt" Demo.text) Demo.world1))
              "Uploaded file is not a valid image" 400%N)
    as (_ & _ & _ & _ & [(Hno & _) | (f & Hfile & _ & _ & Hinvalid & _)]);
    [vm_compute; reflexivity | discriminate Hno |].
  injection Hfile as <-.
  destruct Hinvalid as [_ Hw]; [apply demo_text_invalid | exact Hw].
Defined.

(** X4.  The file is written before the row is inserted: when the row
    id is already a key of the table, the upload of an image that
    Pillow reads and encodes breaks on the insert, the table is as it
    was, and the file stays in the store without a row. *)
Theorem duplicate_id_leaves_file_without_row
    (E : Externals) (token_file token_row : N) (now : datetime.t)
    (req : Request) (w : World) (f : FileStorage) (name : string) (img : PILImage) :
  file req = Some f -> filename f = Some name -> name <> "" ->
  Image_open E (read f) = ret img -> Image_verify E img = ret tt -> writes E img ->
  ~ fresh token_row (db w) ->
  exists e w',
    upload E token_file token_row now req w = (Unhandled e, w') /\
    db w' = db w /\
    files w' !! stored_path E token_file f img = Some (written_file img).
Proof.
  intros Hfile Hname Hne Hopen Hver Hw Hdup.
  destruct (upload_outcome E token_file token_row now req w)
    as [[_ Hno] | [[_ (g & Hg & _ & Hnd)]
        | [(g & img' & e & fs & Hg & _ & Hopen' & _ & Hnw & _)
        | (g & img' & s & out & Hg & _ & Hopen' & _ & _ & Hrest)]]].
  - rewrite Hfile, (named_file_present f name Hname Hne) in Hno. discriminate.
  - exfalso. apply Hnd. exists img. split; congruence.
  - exfalso. assert (g = f) as -> by congruence.
    assert (img' = img) as -> by (unfold ret in *; congruence). done.
  - assert (g = f) as -> by congruence.
    assert (img' = img) as -> by (unfold ret in *; congruence).
    cbv zeta in Hrest. destruct Hrest as [_ [[Hfresh _] | [_ [e ->]]]]; [done |].
    eexists _, _. split; [reflexivity |]. cbn [db files]. split; [done |].
    apply lookup_insert_eq.
Qed.

Lemma duplicate_id_leaves_file_without_row_witness :
  exists e,
    fst (upload (Demo.externals None) Demo.token_a Demo.token_b Demo.now
           (Demo.request "bin.png" Demo.png) taken_world) = Unhandled e.
Proof.
  destruct (duplicate_id_leaves_file_without_row (Demo.externals None) Demo.token_a
              Demo.token_b Demo.now (Demo.request "bin.png" Demo.png) taken_world
              {| filename := Some "bin.png"; read := Demo.png |} "bin.png"
              {| fp := Demo.png; format := Some "PNG"; mode := "RGBA" |})
    as (e & w' & Hup & _);
    [reflexivity | reflexivity | discriminate | reflexivity | reflexivity
    | apply demo_writes_png | |].
  - intros Hfresh. apply Forall_inv in Hfresh. by apply Hfresh.
  - exists e. by rewrite Hup.
Defined.

(** ** The page after an upload *)

Lemma count_app (f : Row -> bool) (l l' : list Row) :
  count f (l ++ l') = (count f l + count f l')%nat.
Proof. unfold count. by rewrite List.filter_app, length_app. Qed.

Lemma count_singleton (f : Row -> bool) (r : Row) :
  count f [r] = if f r then 1%nat else 0%nat.
Proof. unfold count. cbn [List.filter]. by destruct (f r). Qed.

Lemma count_Permutation (f : Row -> bool) (l l' : list Row) :
  l ≡ₚ l' -> count f l = count f l'.
Proof.
  unfold count. induction 1 as [|x l l' _ IH|x y l|l l' l'' _ IH1 _ IH2]; simpl.
  - done.
  - destruct (f x); simpl; by rewrite IH.
  - by destruct (f x), (f y).
  - by rewrite IH1.
Qed.

Lemma count_list_all (f : Row -> bool) (table : list Row) :
  count f (list_all table) = count f table.
Proof. apply count_Permutation, merge_sort_Permutation. Qed.

Lemma tally_row_entry (U : Py.Unicode) (t : Tally) (r : Row) :
  tally_row U t r
  = ret {| small_count := small_count t + (if counts_small r then 1 else 0);
           medium_count := medium_count t + (if counts_medium r then 1 else 0);
           large_count := large_count t + (if counts_large r then 1 else 0);
           map_data := map_data t ++ [entry_of U r] |}%nat%list.
Proof.
  unfold tally_row. rewrite parse_location_text. fold (coords_of U r).
  rewrite size_of_mentions.
  unfold entry_of, display_color, counts_small, counts_medium, counts_large.
  destruct t as [s m l d]. cbn [small_count medium_count large_count map_data].
  destruct (mentions "small" r), (mentions "medium" r), (mentions "large" r);
    cbn [bump color_of bind ret negb andb small_count medium_count large_count];
    repeat f_equal; lia.
Qed.

Lemma tally_rows_entries (U : Py.Unicode) (rows : list Row) (t : Tally) :
  tally_rows U t rows
  = ret {| small_count := small_count t + count counts_small rows;
           medium_count := medium_count t + count counts_medium rows;
           large_count := large_count t + count counts_large rows;
           map_data := map_data t ++ map (entry_of U) rows |}%nat%list.
Proof.
  revert t. induction rows as [|r rows IH]; intros t.
  - destruct t. unfold count. cbn. rewrite app_nil_r. repeat f_equal; lia.
  - cbn [tally_rows]. rewrite tally_row_entry. cbn [bind ret]. rewrite IH.
    cbn [small_count medium_count large_count map_data].
    change (r :: rows) with ([r] ++ rows)%list. rewrite !count_app, map_app, <- app_assoc.
    unfold count. cbn [List.filter].
    destruct (counts_small r), (counts_medium r), (counts_large r);
      cbn [length app map]; unfold ret; do 2 f_equal; lia.
Qed.

(** The page in closed form. *)
Lemma analytics_page (U : Py.Unicode) (w : World) :
  analytics U w
  = ret {| page_rows := list_all (db w);
           chart_data := [count counts_small (db w); count counts_medium (db w);
                          count counts_large (db w)];
           page_tally := {| small_count := count counts_small (db w);
                            medium_count := count counts_medium (db w);
                            large_count := count counts_large (db w);
                            map_data := map (entry_of U) (list_all (db w)) |};
           city_coords := CITY_COORDS;
           city_name := CITY_NAME |}.
Proof.
  unfold analytics. rewrite tally_rows_entries. cbn [bind ret tally0].
  cbn [small_count medium_count large_count map_data app].
  by rewrite !count_list_all.
Qed.

Lemma isdigit_digit (r : N) : (r < 10)%N -> Py.isdigit (datetime.digit r) = true.
Proof.
  intros Hr. unfold Py.isdigit, Py.between, Py.code, datetime.digit.
  rewrite N_ascii_embedding by lia.
  apply andb_true_intro. split; apply N.leb_le; lia.
Qed.

(** Whatever the six numbers, the text has the shape of a timestamp. *)
Lemma strftime_shape (d : datetime.t) : timestamp_shape (datetime.strftime d) = true.
Proof.
  unfold datetime.strftime. cbn [datetime.dec_fixed String.append timestamp_shape forallb].
  rewrite !isdigit_digit by (by apply N.mod_lt). reflexivity.
Qed.

(** X5.  An upload that is answered with the redirect shows on the next
    analytics page: the listing holds the rows there were and one new
    row, whose id is the text of the row token and whose timestamp has
    the shape YYYY-MM-DD HH:MM:SS, and the map data hold its entry. *)
Theorem accepted_upload_is_listed
    (E : Externals) (U : Py.Unicode) (token_file token_row : N) (now : datetime.t)
    (req : Request) (w w' : World) (url : string) :
  upload E token_file token_row now req w = (Redirect url, w') ->
  exists row page,
    db w' = (db w ++ [row])%list /\
    analytics U w' = ret page /\
    page_rows page ≡ₚ row :: db w /\
    id row = UUID.str token_row /\
    (exists ts, timestamp row = Some ts /\ ts = datetime.strftime now /\
                timestamp_shape ts = true) /\
    entry_of U row ∈ map_data (page_tally page) /\
    length (map_data (page_tally page)) = S (length (db w)).
Proof.
  intros Hup.
  apply upload_redirect_inv in Hup as (f & path & fs & s & out & _ & _ & _ & ->).
  exists (upload_row token_row now req path s). eexists.
  split; [reflexivity |]. split; [apply analytics_page |].
  cbn [page_rows page_tally map_data db].
  assert (list_all (db w ++ [upload_row token_row now req path s])
          ≡ₚ upload_row token_row now req path s :: db w) as Hperm.
  { unfold list_all. rewrite merge_sort_Permutation. by rewrite Permutation_app_comm. }
  split; [exact Hperm |]. split; [reflexivity |]. split.
  { eexists. split; [reflexivity |]. split; [reflexivity | apply strftime_shape]. }
  split.
  - apply list_elem_of_fmap. eexists. split; [reflexivity |].
    rewrite Hperm. apply list_elem_of_here.
  - rewrite length_map, Hperm. reflexivity.
Qed.

Lemma accepted_upload_is_listed_witness :
  exists page,
    analytics Demo.unicode
      (snd (upload (Demo.externals None) Demo.token_a Demo.token_b Demo.now
              (Demo.request "bin.png" Demo.png) Demo.world1)) = ret page /\
    length (page_rows page) = 5%nat.
Proof.
  destruct (accepted_upload_is_listed (Demo.externals None) Demo.unicode
              Demo.token_a Demo.token_b Demo.now (Demo.request "bin.png" Demo.png) Demo.world1
              (snd (upload (Demo.externals None) Demo.token_a Demo.token_b Demo.now
                      (Demo.request "bin.png" Demo.png) Demo.world1))
              analytics_url)
    as (row & page & _ & Hpage & Hperm & _); [vm_compute; reflexivity |].
  exists page. split; [exact Hpage |]. by rewrite Hperm.
Defined.

Lemma model_missing_unmatched (r : Row) :
  detected_classes r = Some (detected_str {[ "model_missing" ]}) ->
  counts_small r = false /\ counts_medium r = false /\ counts_large r = false.
Proof.
  intros Hd. unfold counts_small, counts_medium, counts_large, mentions.
  rewrite Hd. by vm_compute.
Qed.

(** X6.  The counts of the page move with the new row only: after an
    accepted upload each of the three counts is what it was, plus one
    for the category of the new row; a row recorded without a classifier
    moves none of them. *)
Theorem counts_grow_with_the_new_row
    (E : Externals) (U : Py.Unicode) (token_file token_row : N) (now : datetime.t)
    (req : Request) (w w' : World) (url : string) :
  upload E token_file token_row now req w = (Redirect url, w') ->
  exists row page page',
    db w' = (db w ++ [row])%list /\
    analytics U w = ret page /\ analytics U w' = ret page' /\
    small_count (page_tally page')
      = (small_count (page_tally page) + if counts_small row then 1 else 0)%nat /\
    medium_count (page_tally page')
      = (medium_count (page_tally page) + if counts_medium row then 1 else 0)%nat /\
    large_count (page_tally page')
      = (large_count (page_tally page) + if counts_large row then 1 else 0)%nat /\
    (model E = None ->
     counts_small row = false /\ counts_medium row = false /\ counts_large row = false).
Proof.
  intros Hup.
  apply upload_redirect_inv in Hup as (f & path & fs & s & out & _ & _ & Hrun & ->).
  exists (upload_row token_row now req path s). do 2 eexists.
  split; [reflexivity |]. split; [apply analytics_page |]. split; [apply analytics_page |].
  cbn [page_tally small_count medium_count large_count db].
  rewrite !count_app, !count_singleton. do 3 (split; [reflexivity |]).
  intros Hnone. apply model_missing_unmatched. cbn [upload_row detected_classes].
  unfold run_model in Hrun. rewrite Hnone in Hrun. by injection Hrun as <- _.
Qed.

Lemma counts_grow_with_the_new_row_witness :
  exists page',
    analytics Demo.unicode
      (snd (upload (Demo.externals (Some (Demo.yolo Demo.labels)))
              Demo.token_a Demo.token_b Demo.now
              (Demo.request "bin.png" Demo.png) Demo.world1)) = ret page' /\
    chart_data page' = [3; 0; 1]%nat.
Proof.
  destruct (counts_grow_with_the_new_row (Demo.externals (Some (Demo.yolo Demo.labels)))
              Demo.unicode Demo.token_a Demo.token_b Demo.now (Demo.request "bin.png" Demo.png)
              Demo.world1
              (snd (upload (Demo.externals (Some (Demo.yolo Demo.labels)))
                      Demo.token_a Demo.token_b Demo.now
                      (Demo.request "bin.png" Demo.png) Demo.world1))
              analytics_url)
    as (row & page & page' & _ & _ & Hpage' & _); [vm_compute; reflexivity |].
  exists page'. split; [exact Hpage' |].
  rewrite analytics_page in Hpage'. injection Hpage' as <-. vm_compute. reflexivity.
Defined.

Lemma count_partition (rows : list Row) :
  (count counts_small rows + count counts_medium rows + count counts_large rows
   + count counts_none rows = length rows)%nat.
Proof.
  unfold count, counts_small, counts_medium, counts_large, counts_none.
  induction rows as [|r rows IH]; [done |]. cbn [List.filter length].
  destruct (mentions "small" r), (mentions "medium" r), (mentions "large" r);
    cbn [negb andb length]; lia.
Qed.

(** X7.  Every record is counted at most once: the three counts and the
    number of records that no keyword matches add up to the number of
    records, so the counts never exceed it. *)
Theorem counts_partition_the_table (U : Py.Unicode) (w : World) :
  exists page,
    analytics U w = ret page /\
    (small_count (page_tally page) + medium_count (page_tally page)
     + large_count (page_tally page) + count counts_none (db w)
     = length (db w))%nat /\
    (small_count (page_tally page) + medium_count (page_tally page)
     + large_count (page_tally page) <= length (page_rows page))%nat.
Proof.
  eexists. split; [apply analytics_page |].
  cbn [page_tally small_count medium_count large_count page_rows].
  pose proof (count_partition (db w)) as Hsum. split; [exact Hsum |].
  unfold list_all. rewrite merge_sort_Permutation. lia.
Qed.

(** X8.  The map data follow the listing: one entry for each listed
    row, in the order of the listing, with the fields of the row, its
    colour, and the coordinates its location resolves to; a row without
    a location lies on the default city. *)
Theorem map_data_follow_listing (U : Py.Unicode) (w : World) :
  exists page,
    analytics U w = ret page /\
    map_data (page_tally page) = map (entry_of U) (page_rows page) /\
    length (map_data (page_tally page)) = length (db w) /\
    (forall r, r ∈ page_rows page -> location r = None ->
       entry_of U r ∈ map_data (page_tally page) /\
       (m_lat (entry_of U r), m_lon (entry_of U r)) = CITY_COORDS).
Proof.
  eexists. split; [apply analytics_page |]. cbn [page_tally map_data page_rows].
  split; [reflexivity |]. split.
  - rewrite length_map. unfold list_all. by rewrite merge_sort_Permutation.
  - intros r Hr Hloc. split.
    + apply list_elem_of_fmap. eauto.
    + unfold entry_of, coords_of. cbn [m_lat m_lon]. rewrite Hloc. reflexivity.
Qed.


(** ** Form fields *)

Lemma lstrip_unfold (s : string) :
  Py.lstrip s = match Py.skip_space s with
                | Some r => Py.lstrip r
                | None => s
                end.
Proof.
  destruct s as [|c1 [|c2 [|c3 s3]]]; cbn [Py.lstrip Py.skip_space]; [done | | |].
  - by destruct (Py.space1 c1).
  - destruct (Py.space1 c1); [done |]. by destruct (Py.space2 c1 c2).
  - destruct (Py.space1 c1); [done |]. destruct (Py.space2 c1 c2); [done |].
    by destruct (Py.space3 c1 c2 c3).
Qed.

Lemma all_space_unfold (s : string) :
  Py.all_space s = match Py.skip_space s with
                   | Some r => Py.all_space r
                   | None => String.eqb s ""
                   end.
Proof.
  destruct s as [|c1 [|c2 [|c3 s3]]]; cbn [Py.all_space Py.skip_space]; [done | | |].
  - by destruct (Py.space1 c1).
  - destruct (Py.space1 c1); [done |]. by destruct (Py.space2 c1 c2).
  - destruct (Py.space1 c1); [done |]. destruct (Py.space2 c1 c2); [done |].
    by destruct (Py.space3 c1 c2 c3).
Qed.

Lemma rstrip_unfold (s : string) :
  Py.rstrip s = if Py.all_space s then ""
                else match s with
                     | String c s' => String c (Py.rstrip s')
                     | EmptyString => ""
                     end.
Proof. by destruct s. Qed.

Lemma skip_space_length (s r : string) :
  Py.skip_space s = Some r -> (String.length r < String.length s)%nat.
Proof.
  destruct s as [|c1 [|c2 [|c3 s3]]]; cbn [Py.skip_space String.length];
    [discriminate | | |].
  - destruct (Py.space1 c1); intros [= <-]. simpl. lia.
  - destruct (Py.space1 c1); [intros [= <-]; simpl; lia |].
    destruct (Py.space2 c1 c2); intros [= <-]. simpl. lia.
  - destruct (Py.space1 c1); [intros [= <-]; simpl; lia |].
    destruct (Py.space2 c1 c2); [intros [= <-]; simpl; lia |].
    destruct (Py.space3 c1 c2 c3); intros [= <-]. lia.
Qed.

(** Induction along the whitespace characters at the head of a text. *)
Lemma skip_space_ind (P : string -> Prop) :
  (forall s, (forall r, Py.skip_space s = Some r -> P r) -> P s) -> forall s, P s.
Proof.
  intros Hstep s. remember (String.length s) as n eqn:Hn.
  revert s Hn. induction (lt_wf n) as [n _ IH]. intros s ->.
  apply Hstep. intros r Hr. apply (IH (String.length r)); [| done].
  by apply skip_space_length.
Qed.

Lemma skip_space_app (a r t : string) :
  Py.skip_space a = Some r -> Py.skip_space (a +:+ t) = Some (r +:+ t).
Proof.
  destruct a as [|c1 [|c2 [|c3 a3]]]; cbn [Py.skip_space String.append];
    [discriminate | | |].
  - destruct (Py.space1 c1); intros [= <-]. reflexivity.
  - destruct (Py.space1 c1); [by intros [= <-] |].
    destruct (Py.space2 c1 c2); intros [= <-]. reflexivity.
  - destruct (Py.space1 c1); [by intros [= <-] |].
    destruct (Py.space2 c1 c2); [by intros [= <-] |].
    destruct (Py.space3 c1 c2 c3); intros [= <-]. reflexivity.
Qed.

Lemma all_space_lstrip (s : string) : Py.all_space (Py.lstrip s) = Py.all_space s.
Proof.
  induction s as [s IH] using skip_space_ind.
  rewrite lstrip_unfold, (all_space_unfold s).
  destruct (Py.skip_space s) as [r|] eqn:Hs; [by apply IH |].
  by rewrite all_space_unfold, Hs.
Qed.

Lemma skip_space_lstrip (s : string) : Py.skip_space (Py.lstrip s) = None.
Proof.
  induction s as [s IH] using skip_space_ind.
  rewrite lstrip_unfold. destruct (Py.skip_space s) as [r|] eqn:Hs; [by apply IH | done].
Qed.

Lemma all_space_app (a t : string) :
  Py.all_space a = true -> Py.all_space (a +:+ t) = Py.all_space t.
Proof.
  induction a as [a IH] using skip_space_ind. rewrite (all_space_unfold a).
  destruct (Py.skip_space a) as [r|] eqn:Ha.
  - intros Hr. rewrite (all_space_unfold (a +:+ t)), (skip_space_app a r t Ha).
    by apply IH.
  - intros Hnil. apply String.eqb_eq in Hnil. by subst a.
Qed.

(** [rstrip] removes a tail of whitespace. *)
Lemma rstrip_split (s : string) :
  exists t, s = Py.rstrip s +:+ t /\ Py.all_space t = true.
Proof.
  induction s as [|c s IH]; [by exists "" |].
  rewrite rstrip_unfold. destruct (Py.all_space (String c s)) eqn:Hall.
  - by exists (String c s).
  - destruct IH as (t & Hs & Ht). exists t. split; [| done].
    cbn [String.append]. by rewrite <- Hs.
Qed.

Lemma all_space_rstrip (s : string) : Py.all_space (Py.rstrip s) = Py.all_space s.
Proof.
  destruct (Py.all_space s) eqn:Hall.
  - by rewrite rstrip_unfold, Hall.
  - apply not_true_is_false. intros Hr. destruct (rstrip_split s) as (t & Hs & Ht).
    rewrite Hs, (all_space_app _ t Hr), Ht in Hall. discriminate.
Qed.

Lemma rstrip_idem (s : string) : Py.rstrip (Py.rstrip s) = Py.rstrip s.
Proof.
  induction s as [|c s IH]; [done |].
  rewrite (rstrip_unfold (String c s)). destruct (Py.all_space (String c s)) eqn:Hall;
    [done |].
  rewrite rstrip_unfold, IH.
  assert (Py.all_space (String c (Py.rstrip s)) = false) as ->; [| done].
  rewrite <- Hall, <- (all_space_rstrip (String c s)).
  by rewrite (rstrip_unfold (String c s)), Hall.
Qed.

Lemma skip_space_rstrip (s : string) :
  Py.skip_space s = None -> Py.skip_space (Py.rstrip s) = None.
Proof.
  intros Hs. destruct (Py.skip_space (Py.rstrip s)) as [r|] eqn:Hr; [| done].
  destruct (rstrip_split s) as (t & Heq & _).
  rewrite Heq, (skip_space_app _ r t Hr) in Hs. discriminate.
Qed.

Lemma strip_idem (s : string) : Py.strip (Py.strip s) = Py.strip s.
Proof.
  unfold Py.strip. rewrite (lstrip_unfold (Py.rstrip _)).
  rewrite skip_space_rstrip by apply skip_space_lstrip. apply rstrip_idem.
Qed.

Lemma rstrip_nil_iff (s : string) : Py.rstrip s = "" <-> Py.all_space s = true.
Proof.
  rewrite rstrip_unfold. destruct (Py.all_space s) eqn:Hall; [done |].
  destruct s; [discriminate Hall | split; discriminate].
Qed.

Lemma strip_nil_iff (s : string) : Py.strip s = "" <-> Py.all_space s = true.
Proof. unfold Py.strip. by rewrite rstrip_nil_iff, all_space_lstrip. Qed.

Lemma stored_field (field : option string) :
  (Py.or_None (form_get field) = None <->
   Py.all_space (default "" field) = true) /\
  (forall t, Py.or_None (form_get field) = Some t ->
             t <> "" /\ Py.strip t = t /\ t = Py.strip (default "" field)).
Proof.
  unfold form_get. rewrite <- strip_nil_iff. split.
  - destruct (Py.strip (default "" field)); simpl; split; done.
  - intros t Ht. pose proof (strip_idem (default "" field)) as Hidem.
    destruct (Py.strip (default "" field)); simpl in Ht; [discriminate |].
    injection Ht as <-. done.
Qed.

(** X9.  The location and the incharge of a recorded row are
    normalised: the column is NULL exactly when the form field is absent
    or holds only whitespace, and otherwise it holds the field without
    its leading and trailing whitespace, which is not empty.  The
    whitespace is that of [str.strip]: the characters of Unicode for
    which [str.isspace] holds. *)
Theorem form_fields_are_normalised
    (E : Externals) (token_file token_row : N) (now : datetime.t)
    (req : Request) (w w' : World) (url : string) :
  upload E token_file token_row now req w = (Redirect url, w') ->
  exists row,
    db w' = (db w ++ [row])%list /\
    (location row = None <->
     Py.all_space (default "" (form_location req)) = true) /\
    (forall t, location row = Some t ->
       t <> "" /\ Py.strip t = t /\ t = Py.strip (default "" (form_location req))) /\
    (incharge row = None <->
     Py.all_space (default "" (form_incharge req)) = true) /\
    (forall t, incharge row = Some t ->
       t <> "" /\ Py.strip t = t /\ t = Py.strip (default "" (form_incharge req))).
Proof.
  intros Hup.
  apply upload_redirect_inv in Hup as (f & path & fs & s & out & _ & _ & _ & ->).
  exists (upload_row token_row now req path s). split; [reflexivity |].
  cbn [upload_row location incharge].
  destruct (stored_field (form_location req)) as [Hl1 Hl2].
  destruct (stored_field (form_incharge req)) as [Hi1 Hi2]. done.
Qed.

Lemma form_fields_are_normalised_witness :
  map (fun r => (location r, incharge r))
    (db (snd (upload (Demo.externals None) Demo.token_a Demo.token_b Demo.now
                {| file := Some {| filename := Some "bin.png"; read := Demo.png |};
                   form_location := Some (Demo.nbsp +:+ "  Main road 4 " +:+ Demo.nbsp);
                   form_incharge := Some ("  " +:+ Demo.nbsp +:+ " ") |}
                Demo.world0)))
  = [(Some "Main road 4", None)].
Proof.
  destruct (form_fields_are_normalised (Demo.externals None) Demo.token_a Demo.token_b
              Demo.now
              {| file := Some {| filename := Some "bin.png"; read := Demo.png |};
                 form_location := Some (Demo.nbsp +:+ "  Main road 4 " +:+ Demo.nbsp);
                 form_incharge := Some ("  " +:+ Demo.nbsp +:+ " ") |} Demo.world0
              (snd (upload (Demo.externals None) Demo.token_a Demo.token_b Demo.now
                      {| file := Some {| filename := Some "bin.png"; read := Demo.png |};
                         form_location :=
                           Some (Demo.nbsp +:+ "  Main road 4 " +:+ Demo.nbsp);
                         form_incharge := Some ("  " +:+ Demo.nbsp +:+ " ") |}
                      Demo.world0))
              analytics_url) as (row & Hdb & Hloc & _ & Hinc & _);
    [vm_compute; reflexivity |].
  rewrite Hdb. cbn [map app db Demo.world0].
  assert (incharge row = None) as -> by (apply Hinc; vm_compute; reflexivity).
  vm_compute in Hdb. injection Hdb as <-. reflexivity.
Defined.

(** ** Commas in a location *)

Lemma split_no_sep (sep : ascii) (p : string) :
  all_chars (not_char sep) p = true -> Py.split sep p = [p].
Proof.
  induction p as [|c p IH]; simpl; [done |]. unfold not_char at 1.
  intros [Hc Hp]%andb_prop. apply negb_true_iff in Hc. rewrite Hc, (IH Hp). done.
Qed.

Lemma split_app_sep (sep : ascii) (p s : string) :
  all_chars (not_char sep) p = true ->
  Py.split sep (p +:+ String sep s) = p :: Py.split sep s.
Proof.
  induction p as [|c p IH]; simpl.
  - intros _. by rewrite Ascii.eqb_refl.
  - unfold not_char at 1. intros [Hc Hp]%andb_prop. apply negb_true_iff in Hc.
    rewrite Hc, (IH Hp). done.
Qed.

(** X10.  A location text without a comma is resolved to the default
    city, whatever it says: a lone number is not a coordinate. *)
Theorem location_without_comma_is_default (U : Py.Unicode) (text : string) :
  all_chars (not_char ",") text = true ->
  parse_location_to_coords U (Some text) = ret CITY_COORDS.
Proof.
  intros Hno. rewrite parse_location_text. unfold first_two_floats, location_parts.
  by rewrite (split_no_sep "," text Hno).
Qed.

Lemma location_without_comma_is_default_witness :
  parse_location_to_coords Demo.unicode (Some "34.5") = ret CITY_COORDS.
Proof.
  apply (location_without_comma_is_default Demo.unicode "34.5"). reflexivity.
Defined.

(** X11.  Only the first two comma-separated parts of a location count:
    what follows a second comma does not change the coordinates. *)
Theorem location_extra_parts_are_ignored (U : Py.Unicode) (p0 p1 rest : string) :
  all_chars (not_char ",") p0 = true -> all_chars (not_char ",") p1 = true ->
  parse_location_to_coords U (Some (p0 +:+ "," +:+ p1 +:+ "," +:+ rest))
  = parse_location_to_coords U (Some (p0 +:+ "," +:+ p1)).
Proof.
  intros H0 H1. rewrite !parse_location_text. unfold first_two_floats, location_parts.
  change (p0 +:+ "," +:+ p1 +:+ "," +:+ rest)
    with (p0 +:+ String "," (p1 +:+ String "," rest)).
  change (p0 +:+ "," +:+ p1) with (p0 +:+ String "," p1).
  rewrite !(split_app_sep "," p0) by done.
  rewrite (split_app_sep "," p1) by done. rewrite (split_no_sep "," p1) by done.
  reflexivity.
Qed.

Lemma location_extra_parts_are_ignored_witness :
  parse_location_to_coords Demo.unicode (Some "34.5, 73.9, near the bridge")
  = parse_location_to_coords Demo.unicode (Some "34.5, 73.9").
Proof.
  apply (location_extra_parts_are_ignored Demo.unicode "34.5" " 73.9" " near the bridge");
    reflexivity.
Defined.


(** ** Files of different uploads *)

Lemma stored_path_inj E t1 t2 f1 f2 img1 img2 :
  UUID.in_range t1 -> UUID.in_range t2 ->
  stored_path E t1 f1 img1 = stored_path E t2 f2 img2 -> t1 = t2.
Proof.
  intros H1 H2. unfold stored_path. rewrite !join_upload_folder.
  intros Heq%String.app_inj. by apply stored_name_inj in Heq.
Qed.

(** X12.  Two uploads recorded one after the other under different file
    tokens are stored under different paths: each under the path made
    of its own token, its own sanitized name and the extension of its
    own image, which is the path its row names.  The second upload
    leaves the file of the first as it was written. *)
Theorem uploads_do_not_overwrite_each_other
    (E : Externals) (t1 r1 t2 r2 : N) (now1 now2 : datetime.t)
    (req1 req2 : Request) (w w1 w2 : World) (url1 url2 : string) :
  UUID.in_range t1 -> UUID.in_range t2 -> t1 <> t2 ->
  upload E t1 r1 now1 req1 w = (Redirect url1, w1) ->
  upload E t2 r2 now2 req2 w1 = (Redirect url2, w2) ->
  exists f1 f2 img1 img2 row1 row2,
    file req1 = Some f1 /\ file req2 = Some f2 /\
    Image_open E (read f1) = ret img1 /\ Image_open E (read f2) = ret img2 /\
    stored_path E t1 f1 img1 <> stored_path E t2 f2 img2 /\
    files w1 !! stored_path E t1 f1 img1 = Some (written_file img1) /\
    files w2 !! stored_path E t1 f1 img1 = Some (written_file img1) /\
    files w2 !! stored_path E t2 f2 img2 = Some (written_file img2) /\
    db w2 = (db w ++ [row1; row2])%list /\
    row_filename row1 = os_path.basename (stored_path E t1 f1 img1) /\
    row_filename row2 = os_path.basename (stored_path E t2 f2 img2).
Proof.
  intros Hr1 Hr2 Hne Hup1 Hup2.
  apply upload_redirect_inv in Hup1 as (f1 & p1 & fs1 & s1 & o1 & Hf1 & Hs1 & _ & ->).
  apply upload_redirect_inv in Hup2 as (f2 & p2 & fs2 & s2 & o2 & Hf2 & Hs2 & _ & ->).
  cbn [files db] in *.
  apply save_uploaded_image_success in Hs1 as (img1 & Ho1 & _ & _ & -> & ->).
  apply save_uploaded_image_success in Hs2 as (img2 & Ho2 & _ & _ & -> & ->).
  exists f1, f2, img1, img2.
  exists (upload_row r1 now1 req1 (stored_path E t1 f1 img1) s1),
         (upload_row r2 now2 req2 (stored_path E t2 f2 img2) s2).
  assert (stored_path E t1 f1 img1 <> stored_path E t2 f2 img2) as Hpaths
    by (intros Heq; apply Hne; by apply (stored_path_inj E t1 t2 f1 f2 img1 img2)).
  do 4 (split; [done |]). split; [exact Hpaths |].
  split; [by rewrite lookup_insert_eq |].
  split.
  { rewrite lookup_insert_ne by (intros Heq; by apply Hpaths).
    by rewrite lookup_insert_eq. }
  split; [by rewrite lookup_insert_eq |].
  split; [by rewrite <- app_assoc |]. split; reflexivity.
Qed.

Lemma uploads_do_not_overwrite_each_other_witness :
  let w1 := snd (upload (Demo.externals None) Demo.token_a Demo.token_b Demo.now
                   (Demo.request "bin.png" Demo.png) Demo.world0) in
  let w2 := snd (upload (Demo.externals None) Demo.token_c Demo.token_a Demo.later
                   (Demo.request "bin.png" Demo.jpeg) w1) in
  files w2 !! "uploads/123e4567-e89b-42d3-a456-426614174000_bin.png"
  = Some (as_detected {| fp := Demo.png; format := Some "PNG"; mode := "RGBA" |}) /\
  files w2 !! "uploads/0a0b0c0d-0e0f-4071-8293-a4b5c6d7e8f9_bin.jpg"
  = Some (as_rgb_jpeg {| fp := Demo.jpeg; format := Some "JPEG"; mode := "L" |}) /\
  map row_filename (db w2)
  = ["123e4567-e89b-42d3-a456-426614174000_bin.png";
     "0a0b0c0d-0e0f-4071-8293-a4b5c6d7e8f9_bin.jpg"].
Proof.
  intros w1 w2.
  destruct (uploads_do_not_overwrite_each_other (Demo.externals None)
              Demo.token_a Demo.token_b Demo.token_c Demo.token_a Demo.now Demo.later
              (Demo.request "bin.png" Demo.png) (Demo.request "bin.png" Demo.jpeg)
              Demo.world0 w1 w2 analytics_url analytics_url)
    as (f1 & f2 & img1 & img2 & row1 & row2 & Hf1 & Hf2 & Ho1 & Ho2 & _ & _
        & Hfirst & Hsecond & Hdb & Hn1 & Hn2);
    [reflexivity | reflexivity | discriminate | vm_compute; reflexivity
    | vm_compute; reflexivity |].
  injection Hf1 as <-. injection Hf2 as <-.
  vm_compute in Ho1. injection Ho1 as <-. vm_compute in Ho2. injection Ho2 as <-.
  split; [exact Hfirst |]. split; [exact Hsecond |].
  rewrite Hdb, map_app. cbn [map Demo.world0 db app]. rewrite Hn1, Hn2.
  vm_compute. reflexivity.
Defined.

(** ** The canonical extension *)

Lemma lower_char_not_upper (c : ascii) : Py.isupper (Py.lower_char c) = false.
Proof.
  unfold Py.lower_char. destruct (Py.isupper c) eqn:Hup; [| exact Hup].
  unfold Py.isupper, Py.between, Py.code in *.
  apply andb_prop in Hup as [Hlo Hhi]. apply N.leb_le in Hlo, Hhi.
  rewrite N_ascii_embedding by lia.
  apply andb_false_intro2. apply N.leb_gt. lia.
Qed.

Lemma lower_has_no_upper (s : string) :
  all_chars (fun c => negb (Py.isupper c)) (Py.lower s) = true.
Proof.
  induction s as [|c s IH]; simpl; [done |]. by rewrite lower_char_not_upper, IH.
Qed.

(** X13.  The extension a file is stored with has no upper-case letter
    and is never "jpeg" nor "jfif": both are stored as "jpg", and so is
    an image whose format Pillow does not report. *)
Theorem canonical_ext_is_lower_case_and_collapsed (img : PILImage) :
  canonical_ext img <> "jpeg" /\ canonical_ext img <> "jfif" /\
  all_chars (fun c => negb (Py.isupper c)) (canonical_ext img) = true /\
  canonical_ext {| fp := fp img; format := None; mode := mode img |} = "jpg" /\
  canonical_ext {| fp := fp img; format := Some "JFIF"; mode := mode img |} = "jpg" /\
  canonical_ext {| fp := fp img; format := Some "JPEG"; mode := mode img |} = "jpg".
Proof.
  split; [apply canonical_ext_not_jpeg |].
  split; [| split; [| by vm_compute]].
  - unfold canonical_ext. rewrite ext_map_lookup. repeat case_decide; simpl; congruence.
  - unfold canonical_ext. rewrite ext_map_lookup.
    repeat case_decide; simpl; [done | done | apply lower_has_no_upper].
Qed.

(** ** From the row back to the file *)

(** The base name of a file directly under the upload folder. *)
Lemma basename_upload_folder (name : string) :
  all_chars (not_char "/") name = true ->
  os_path.basename ("uploads/" +:+ name) = name.
Proof.
  intros Hname. unfold os_path.basename, os_path.rfind.
  cbn [String.append os_path.rfind_from Ascii.eqb Bool.eqb Z.add Pos.add Pos.succ].
  rewrite rfind_from_absent by done.
  unfold os_path.from.
  match goal with |- context [Z.to_nat ?z] => change (Z.to_nat z) with 8%nat end.
  cbn [String.length Nat.sub substring]. rewrite Nat.sub_0_r. apply substring_all.
Qed.

Lemma splitext_base_chars (P : ascii -> bool) (p : string) :
  all_chars P p = true -> all_chars P (fst (os_path.splitext p)) = true.
Proof.
  intros Hp. unfold os_path.splitext.
  destruct (_ <? _)%Z; [| done]. destruct (os_path.all_dots _); [done |].
  cbn [fst]. by apply all_chars_substring.
Qed.

Lemma hex_fixed_chars (w : nat) (n : N) :
  all_chars (not_char "/") (UUID.hex_fixed w n) = true.
Proof.
  revert n. induction w as [|w IH]; intros n; simpl; [done |].
  rewrite all_chars_app, IH. simpl. unfold not_char.
  destruct (Ascii.eqb_spec (UUID.lowhex (n mod 16)) "/") as [Heq |]; [| done].
  by apply lowhex_not_slash in Heq; [| apply N.mod_lt].
Qed.

Lemma uuid_str_chars (u : N) : all_chars (not_char "/") (UUID.str u) = true.
Proof.
  unfold UUID.str, UUID.dashed. pose proof (hex_fixed_chars 32 u) as Hhex.
  rewrite !all_chars_app, !all_chars_substring by done. reflexivity.
Qed.

(** X14.  When neither the sanitized name nor the extension holds a
    slash, the filename column of a recorded row is the name of the
    stored file: it starts with the text of the file token, and joined
    to the upload folder it is the path the file was written under. *)
Theorem row_filename_names_the_stored_file
    (E : Externals) (token_file token_row : N) (now : datetime.t)
    (req : Request) (w w' : World) (url : string) :
  (forall x, all_chars (not_char "/") (secure_filename E x) = true) ->
  (forall raw img, Image_open E raw = ret img ->
                   all_chars (not_char "/") (canonical_ext img) = true) ->
  upload E token_file token_row now req w = (Redirect url, w') ->
  exists row rest,
    db w' = (db w ++ [row])%list /\
    row_filename row = UUID.str token_file +:+ "_" +:+ rest /\
    is_Some (files w' !! os_path.join UPLOAD_FOLDER (row_filename row)).
Proof.
  intros Hname Hext Hup.
  apply upload_redirect_inv in Hup as (f & path & fs & s & out & _ & Hsave & _ & ->).
  apply save_uploaded_image_success in Hsave as (img & Hopen & _ & _ & -> & ->).
  exists (upload_row token_row now req (stored_path E token_file f img) s).
  eexists. split; [reflexivity |]. cbn [upload_row row_filename files].
  unfold stored_path at 1 2. rewrite join_upload_folder.
  rewrite basename_upload_folder.
  - split; [reflexivity |].
    fold (stored_path E token_file f img). rewrite lookup_insert_eq. eauto.
  - unfold stored_name. rewrite !all_chars_app, uuid_str_chars.
    rewrite splitext_base_chars by apply Hname. rewrite (Hext _ _ Hopen). reflexivity.
Qed.

Lemma demo_filename_chars (x : string) :
  all_chars (not_char "/") (Demo.ascii_filename x) = true.
Proof.
  induction x as [|c x IH]; simpl; [done |].
  destruct (Demo.keep c) eqn:Hkeep; [| exact IH]. simpl. rewrite IH.
  unfold not_char. destruct (Ascii.eqb_spec c "/") as [-> |]; [discriminate Hkeep | done].
Qed.

Lemma demo_formats (raw : list byte) (img : PILImage) :
  Demo.open_by_magic raw = ret img ->
  format img = Some "PNG" \/ format img = Some "JPEG" \/ format img = Some "XPM".
Proof.
  unfold Demo.open_by_magic, ret, raise.
  destruct raw as [|b0 [|b1 raw]]; [discriminate | destruct b0; discriminate |].
  destruct b0; try discriminate.
  - destruct b1; try discriminate. intros [= <-]. auto.
  - destruct b1; try discriminate.
    destruct raw as [|b2 [|b3 raw]]; [discriminate | destruct b2; discriminate |].
    destruct b2; try discriminate. destruct b3; try discriminate.
    intros [= <-]. by left.
  - destruct b1; try discriminate. intros [= <-]. auto.
Qed.

Lemma row_filename_names_the_stored_file_witness :
  map row_filename
    (db (snd (upload (Demo.externals None) Demo.token_a Demo.token_b Demo.now
                (Demo.request "../../etc/my bin.png" Demo.png) Demo.world0)))
  = ["123e4567-e89b-42d3-a456-426614174000_....etcmybin.png"].
Proof.
  destruct (row_filename_names_the_stored_file (Demo.externals None) Demo.token_a
              Demo.token_b Demo.now (Demo.request "../../etc/my bin.png" Demo.png)
              Demo.world0
              (snd (upload (Demo.externals None) Demo.token_a Demo.token_b Demo.now
                      (Demo.request "../../etc/my bin.png" Demo.png) Demo.world0))
              analytics_url) as (row & rest & Hdb & _).
  - apply demo_filename_chars.
  - intros raw img Hopen. unfold canonical_ext.
    destruct (demo_formats raw img Hopen) as [-> | [-> | ->]]; reflexivity.
  - vm_compute. reflexivity.
  - vm_compute. reflexivity.
Defined.


(** ** The detected set *)

Lemma collect_labels (table : gmap Z string) (results : Iter YoloResult) (x : string) :
  x ∈ fst (read_results table ∅ results) <-> is_label table results x.
Proof.
  destruct (read_results_spec table ∅ results) as [_ Hset].
  rewrite Hset, elem_of_empty. tauto.
Qed.

(** X15.  The stored text depends on the labels only, not on how often
    or in which order the classifier reports them: two runs whose boxes
    carry the same labels store the same [detected_classes]. *)
Theorem detected_classes_ignore_order_and_repeats
    (table : gmap Z string) (results1 results2 : Iter YoloResult) :
  (forall x, is_label table results1 x <-> is_label table results2 x) ->
  fst (read_results table ∅ results1) = fst (read_results table ∅ results2) /\
  detected_str (fst (read_results table ∅ results1))
  = detected_str (fst (read_results table ∅ results2)).
Proof.
  intros Hsame.
  assert (fst (read_results table ∅ results1) = fst (read_results table ∅ results2))
    as Heq.
  { apply set_eq. intros x. by rewrite !collect_labels. }
  split; [exact Heq | by rewrite Heq].
Qed.

Lemma detected_classes_ignore_order_and_repeats_witness :
  detected_str
    (fst (read_results Demo.labels ∅
            (of_list [ {| boxes := Some (of_list [Demo.box 1; Demo.box 0; Demo.box 1]) |};
                       {| boxes := None |} ])))
  = detected_str
      (fst (read_results Demo.labels ∅
              (of_list [ {| boxes := Some (of_list [Demo.box 0]) |};
                         {| boxes := Some (of_list [Demo.box 1]) |} ]))).
Proof.
  apply (detected_classes_ignore_order_and_repeats Demo.labels
           (of_list [ {| boxes := Some (of_list [Demo.box 1; Demo.box 0; Demo.box 1]) |};
                      {| boxes := None |} ])
           (of_list [ {| boxes := Some (of_list [Demo.box 0]) |};
                      {| boxes := Some (of_list [Demo.box 1]) |} ])).
  intros x. rewrite <- !collect_labels.
  assert (fst (read_results Demo.labels ∅
                 (of_list [ {| boxes := Some (of_list [Demo.box 1; Demo.box 0;
                                                        Demo.box 1]) |};
                            {| boxes := None |} ]))
          = fst (read_results Demo.labels ∅
                   (of_list [ {| boxes := Some (of_list [Demo.box 0]) |};
                              {| boxes := Some (of_list [Demo.box 1]) |} ])))
    as -> by (vm_compute; reflexivity).
  reflexivity.
Defined.

Lemma upload_only_adds_witness :
  db Demo.world1
  `prefix_of` db (snd (upload (Demo.externals None) Demo.token_a Demo.token_b Demo.now
                         (Demo.request "bin.png" Demo.png) Demo.world1)).
Proof.
  apply (upload_only_adds (Demo.externals None) Demo.token_a Demo.token_b Demo.now
           (Demo.request "bin.png" Demo.png) Demo.world1).
Defined.

Lemma map_data_follow_listing_witness :
  exists page,
    analytics Demo.unicode Demo.world1 = ret page /\
    map m_id (map_data (page_tally page)) = ["b"; "a"; "d"; "c"] /\
    map (fun e => (m_lat e, m_lon e)) (map_data (page_tally page))
    = [CITY_COORDS; CITY_COORDS; CITY_COORDS; CITY_COORDS].
Proof.
  destruct (map_data_follow_listing Demo.unicode Demo.world1)
    as (page & Hpage & Hmap & _ & _).
  exists page. split; [exact Hpage |]. rewrite Hmap.
  rewrite analytics_page in Hpage. injection Hpage as <-.
  split; vm_compute; reflexivity.
Defined.
